(** * MiniGrid state and field of view (uncertain_worms/environments/minigrid/api.py)

    A shallow embedding of [MinigridState] and of the NumPy operations its
    methods call.  NumPy arrays are views (offset, shape, strides) onto flat
    buffers that live in a heap, so that the in-place write of
    [get_field_of_view] into [self.grid] and the views returned by [.T] and
    [np.rot90] alias memory the way they do in the program. *)

From Stdlib Require Import ZArith List Lia Bool.
From stdpp Require Import base numbers list sorting.

Open Scope Z_scope.

(** ** Exceptions and a state-and-exception monad *)

Inductive exn : Type := AssertionError | ValueError | IndexError.

Inductive outcome (A : Type) : Type :=
| Ret (a : A)
| Raise (e : exn).
Arguments Ret {A} a.
Arguments Raise {A} e.

(** A computation over a store [S]: it returns or raises, and in both cases
    leaves a store behind (an exception does not undo earlier writes). *)
Definition M (S A : Type) : Type := S -> outcome A * S.

Definition ret {S A} (a : A) : M S A := fun s => (Ret a, s).
Definition raise {S A} (e : exn) : M S A := fun s => (Raise e, s).
Definition bind {S A B} (c : M S A) (k : A -> M S B) : M S B :=
  fun s => match c s with
           | (Ret a, s') => k a s'
           | (Raise e, s') => (Raise e, s')
           end.

Notation "'let*' x := c 'in' k" := (bind c (fun x => k))
  (at level 10, x pattern, c at level 100, k at level 200, only parsing).

(** ** The heap of array buffers and NumPy views *)

Abbreviation buffer := (list Z).
Abbreviation heap := (list (list Z)).

(** A two-dimensional [ndarray]: the buffer it views, and the element
    offset, shape and element strides of the view. *)
Record ndarray : Type := mk_ndarray {
  base : nat;
  offset : Z;
  shape0 : Z;
  shape1 : Z;
  stride0 : Z;
  stride1 : Z
}.

Definition flat_index (a : ndarray) (i j : Z) : Z :=
  offset a + i * stride0 a + j * stride1 a.

(** Element read of an index already known to be in range. *)
Definition getitem (h : heap) (a : ndarray) (i j : Z) : Z :=
  match h !! base a with
  | Some buf =>
      if flat_index a i j <? 0 then 0
      else default 0 (buf !! Z.to_nat (flat_index a i j))
  | None => 0
  end.

(** [range(n)] *)
Definition range (n : Z) : list Z := seqZ 0 n.

(** The array as nested lists ([a.tolist()]). *)
Definition tolist (h : heap) (a : ndarray) : list (list Z) :=
  map (fun i => map (fun j => getitem h a i j) (range (shape1 a)))
      (range (shape0 a)).

(** [np.full((n0, n1), fill)]: a fresh C-contiguous array. *)
Definition np_full (n0 n1 fill : Z) : M heap ndarray :=
  fun h =>
    if (n0 <? 0) || (n1 <? 0) then (Raise ValueError, h)
    else (Ret (mk_ndarray (length h) 0 n0 n1 n1 1),
          h ++ [replicate (Z.to_nat (n0 * n1)) fill]).

(** Python's adjustment of a slice bound against a length (step 1). *)
Definition adjust_bound (k len : Z) : Z :=
  if k <? 0 then Z.max (k + len) 0
  else Z.min k len.

(** [a[lo0:hi0, lo1:hi1]]: a view onto the same buffer. *)
Definition getitem_slice (a : ndarray) (lo0 hi0 lo1 hi1 : Z) : ndarray :=
  let s0 := adjust_bound lo0 (shape0 a) in
  let e0 := adjust_bound hi0 (shape0 a) in
  let s1 := adjust_bound lo1 (shape1 a) in
  let e1 := adjust_bound hi1 (shape1 a) in
  mk_ndarray (base a)
             (offset a + s0 * stride0 a + s1 * stride1 a)
             (Z.max (e0 - s0) 0) (Z.max (e1 - s1) 0)
             (stride0 a) (stride1 a).

(** The element writes of an assignment, applied to one buffer. *)
Definition write (buf : buffer) (kv : Z * Z) : buffer :=
  if fst kv <? 0 then buf else <[Z.to_nat (fst kv) := snd kv]> buf.

Definition pairs (n0 n1 : Z) : list (Z * Z) :=
  flat_map (fun i => map (fun j => (i, j)) (range n1)) (range n0).

(** [dst[...] = src]: [src] is broadcast to the shape of [dst] (an axis of
    length 1 is repeated), a shape that does not broadcast raises
    [ValueError] before anything is written, and the values are those [src]
    held before the assignment. *)
Definition setitem_array (dst src : ndarray) : M heap unit :=
  fun h =>
    if ((shape0 src =? shape0 dst) || (shape0 src =? 1))
       && ((shape1 src =? shape1 dst) || (shape1 src =? 1))
    then
      let value (ij : Z * Z) :=
        getitem h src (if shape0 src =? shape0 dst then fst ij else 0)
                      (if shape1 src =? shape1 dst then snd ij else 0) in
      let writes :=
        map (fun ij => (flat_index dst (fst ij) (snd ij), value ij))
            (pairs (shape0 dst) (shape1 dst)) in
      match h !! base dst with
      | Some buf => (Ret tt, <[base dst := fold_left write writes buf]> h)
      | None => (Ret tt, h)
      end
    else (Raise ValueError, h).

(** Python's adjustment of an integer index: negative indices count from
    the end, anything outside raises [IndexError]. *)
Definition adjust_index (k len : Z) : option Z :=
  if (k <? - len) || (len <=? k) then None
  else Some (if k <? 0 then k + len else k).

(** [a[i, j] = v] *)
Definition setitem_index (a : ndarray) (i j v : Z) : M heap unit :=
  fun h =>
    match adjust_index i (shape0 a), adjust_index j (shape1 a) with
    | Some i', Some j' =>
        match h !! base a with
        | Some buf =>
            (Ret tt, <[base a := write buf (flat_index a i' j', v)]> h)
        | None => (Ret tt, h)
        end
    | _, _ => (Raise IndexError, h)
    end.

(** [a.T] *)
Definition transpose (a : ndarray) : ndarray :=
  mk_ndarray (base a) (offset a) (shape1 a) (shape0 a) (stride1 a) (stride0 a).

(** [np.flip(a, 1)], that is [a[:, ::-1]] *)
Definition flip1 (a : ndarray) : ndarray :=
  mk_ndarray (base a)
             (if 0 <? shape1 a then offset a + (shape1 a - 1) * stride1 a
              else offset a)
             (shape0 a) (shape1 a) (stride0 a) (- stride1 a).

(** [np.rot90(a, k=1)], which NumPy computes as
    [transpose(flip(a, 1))]. *)
Definition np_rot90 (a : ndarray) : ndarray := transpose (flip1 a).

(** [a == t] as a temporary array of booleans ([a] read in logical
    order). *)
Definition np_equal (h : heap) (a : ndarray) (t : Z) : list (list bool) :=
  map (map (fun v => v =? t)) (tolist h a).

(** [np.where(m)] for a two-dimensional [m]: the row indices and the column
    indices of the true entries, in C order. *)
Definition np_where (m : list (list bool)) : list Z * list Z :=
  let hits :=
    flat_map (fun ir : nat * list bool =>
                flat_map (fun jb : nat * bool =>
                            if snd jb then [(Z.of_nat (fst ir), Z.of_nat (fst jb))]
                            else [])
                         (imap pair (snd ir)))
             (imap pair m) in
  (map fst hits, map snd hits).

(** ** The constants of the module *)

(** [class ObjectTypes(IntEnum)]: the members and their integer values; an
    [IntEnum] member is used wherever an [int] is. *)
Module ObjectTypes.

Inductive t : Type :=
| unseen | empty | wall | open_door | closed_door | locked_door
| key | ball | box | goal | lava | agent.

Definition value (c : t) : Z :=
  match c with
  | unseen => 0 | empty => 1 | wall => 2 | open_door => 4
  | closed_door => 5 | locked_door => 6 | key => 7 | ball => 8
  | box => 9 | goal => 10 | lava => 11 | agent => 12
  end.

End ObjectTypes.
Coercion ObjectTypes.value : ObjectTypes.t >-> Z.

(** [class Direction(IntEnum)] *)
Module Direction.

Inductive t : Type := facing_right | facing_down | facing_left | facing_up.

Definition value (d : t) : Z :=
  match d with
  | facing_right => 0 | facing_down => 1 | facing_left => 2 | facing_up => 3
  end.

End Direction.
Coercion Direction.value : Direction.t >-> Z.

Definition DIR_TO_VEC : list (Z * Z) :=
  [ (1, 0)      (* Pointing right (positive X) *)
  ; (0, 1)      (* Down (positive Y) *)
  ; (-1, 0)     (* Pointing left (negative X) *)
  ; (0, -1) ].  (* Up (negative Y) *)

(** [l[k]] on a Python list. *)
Definition list_getitem {S A} (l : list A) (k : Z) : M S A :=
  match adjust_index k (Z.of_nat (length l)) with
  | Some k' =>
      match l !! Z.to_nat k' with
      | Some x => ret x
      | None => raise IndexError
      end
  | None => raise IndexError
  end.

(** Addition of two [int64] arrays wraps around.  The operands are arrays
    of coordinates in the [int64] range; the properties of [front_pos]
    carry that range as a hypothesis. *)
Definition wrap64 (z : Z) : Z := (z + 2 ^ 63) mod 2 ^ 64 - 2 ^ 63.

Definition np_add (p q : Z * Z) : Z * Z :=
  (wrap64 (fst p + fst q), wrap64 (snd p + snd q)).

(** ** MinigridState *)

Record MinigridState : Type := mk_MinigridState {
  grid : ndarray;
  agent_pos : Z * Z;
  agent_dir : Z;
  carrying : option Z
}.

(** The store a method runs in: the array buffers and the attributes of
    the state object the method is called on. *)
Record world : Type := mk_world {
  mem : heap;
  self : MinigridState
}.

Definition get_self : M world MinigridState := fun w => (Ret (self w), w).

Definition on_mem {A} (c : M heap A) : M world A :=
  fun w => let (r, h) := c (mem w) in (r, mk_world h (self w)).

Definition read_mem {A} (f : heap -> A) : M world A :=
  fun w => (Ret (f (mem w)), w).

(** [front_pos]: the two-element arrays built from [agent_pos] (taken in the
    [int64] range, the dtype NumPy gives them) and from the table entry are
    added, and [tolist] gives the pair back. *)
Definition front_pos : M world (Z * Z) :=
  let* self := get_self in
  let* v := list_getitem DIR_TO_VEC (agent_dir self) in
  ret (np_add (agent_pos self) v).

Definition width (s : MinigridState) : Z := shape0 (grid s).
Definition height (s : MinigridState) : Z := shape1 (grid s).

Definition get_type_indices (type : Z) : M world (list (Z * Z)) :=
  let* self := get_self in
  let* idxs := read_mem (fun h => np_where (np_equal h (grid self) type)) in
  ret (combine (fst idxs) (snd idxs)).

(** The extents of the square set of tiles visible to the agent: the
    [if]/[elif] chain on [agent_dir], with its failing [assert]. *)
Definition top_left (view_size : Z) : M world (Z * Z) :=
  let* self := get_self in
  if agent_dir self =? 0 then
    ret (fst (agent_pos self), snd (agent_pos self) - view_size / 2)
  else if agent_dir self =? 1 then
    ret (fst (agent_pos self) - view_size / 2, snd (agent_pos self))
  else if agent_dir self =? 2 then
    ret (fst (agent_pos self) - view_size + 1,
         snd (agent_pos self) - view_size / 2)
  else if agent_dir self =? 3 then
    ret (fst (agent_pos self) - view_size / 2,
         snd (agent_pos self) - view_size + 1)
  else raise AssertionError.

(** The padded window before it is rotated: the wall-filled array and the
    copy of the overlapping slice of the grid. *)
Definition clipped_window (view_size : Z) : M world ndarray :=
  let* self := get_self in
  let* (topX, topY) := top_left view_size in
  let* fov := on_mem (np_full view_size view_size ObjectTypes.wall) in
  let gx0 := Z.max topX 0 in
  let gy0 := Z.max topY 0 in
  let gx1 := Z.min (topX + view_size) (shape0 (grid self)) in
  let gy1 := Z.min (topY + view_size) (shape1 (grid self)) in
  let px0 := Z.max 0 (- topX) in
  let py0 := Z.max 0 (- topY) in
  let* _ := on_mem (setitem_array
                      (getitem_slice fov px0 (px0 + (gx1 - gx0))
                                         py0 (py0 + (gy1 - gy0)))
                      (getitem_slice (grid self) gx0 gx1 gy0 gy1)) in
  ret fov.

(** One pass of the loop body, [fov = np.rot90(fov.T, k=1).T]. *)
Definition rotate_left (fov : ndarray) : ndarray :=
  transpose (np_rot90 (transpose fov)).

Definition get_field_of_view (view_size : Z) : M world ndarray :=
  let* self := get_self in
  let* fov := clipped_window view_size in
  let fov := Nat.iter (Z.to_nat (agent_dir self + 1)) rotate_left fov in
  let agent_pos := (shape0 (grid self) / 2, shape1 (grid self) - 1) in
  let* _ := on_mem (setitem_index (grid self) (fst agent_pos) (snd agent_pos)
                      ObjectTypes.agent) in
  ret fov.

(** ** Worked examples *)

(** A fresh [w] by [h] grid filled with [c], with the agent at [pos] facing
    [dir]: the world a caller builds before calling a method. *)
Definition fresh_world (w h c : Z) (pos : Z * Z) (dir : Z) : world :=
  mk_world [replicate (Z.to_nat (w * h)) c]
           (mk_MinigridState (mk_ndarray 0 0 w h h 1) pos dir None).

Definition run_fov (w : world) (view_size : Z) : outcome (list (list Z)) :=
  match get_field_of_view view_size w with
  | (Ret fov, w') => Ret (tolist (mem w') fov)
  | (Raise e, _) => Raise e
  end.

(** ** Well-formed worlds *)

(** The grid is an array as NumPy allocates it: it owns a buffer of
    [shape0 * shape1] cells laid out in C order. *)
Definition c_contiguous (h : heap) (a : ndarray) : Prop :=
  offset a = 0 /\ 0 <= shape0 a /\ 0 <= shape1 a /\
  stride0 a = shape1 a /\ stride1 a = 1 /\
  length <$> (h !! base a) = Some (Z.to_nat (shape0 a * shape1 a)).

Definition in_bounds (s : MinigridState) (x y : Z) : Prop :=
  0 <= x < width s /\ 0 <= y < height s.

Definition in_boundsb (s : MinigridState) (x y : Z) : bool :=
  (0 <=? x) && (x <? width s) && (0 <=? y) && (y <? height s).

(** The invariants of a state: an allocated grid, the agent on it and one
    of the four directions. *)
Definition valid_dir (d : Z) : Prop := 0 <= d <= 3.

Definition valid_world (w : world) : Prop :=
  c_contiguous (mem w) (grid (self w)) /\
  in_bounds (self w) (fst (agent_pos (self w))) (snd (agent_pos (self w))) /\
  valid_dir (agent_dir (self w)).

(** ** Definitions used to state the properties *)

(** What the window is to hold at index [(i, j)] when its corner is
    [(tx, ty)]: the grid cell under it, or the wall code off the grid. *)
Definition window_cell (h : heap) (s : MinigridState) (tx ty i j : Z) : Z :=
  if in_boundsb s (tx + i) (ty + j)
  then getitem h (grid s) (tx + i) (ty + j)
  else ObjectTypes.wall.

(** Where cell [(i, j)] of the turned window comes from, for a window of
    side [n]. *)
Definition turn (n : Z) (ij : Z * Z) : Z * Z := (n - 1 - snd ij, fst ij).

(** The array [np.full] allocates on heap [h] for the window. *)
Definition fresh_window (h : heap) (view_size : Z) : ndarray :=
  mk_ndarray (length h) 0 view_size view_size view_size 1.

(** The order of a row-major scan: by first index, then by second. *)
Definition lex_lt (p q : Z * Z) : Prop :=
  fst p < fst q \/ (fst p = fst q /\ snd p < snd q).

(** The displacement the specification gives for each direction. *)
Definition direction_vector (d : Direction.t) : Z * Z :=
  match d with
  | Direction.facing_right => (1, 0)
  | Direction.facing_down => (0, 1)
  | Direction.facing_left => (-1, 0)
  | Direction.facing_up => (0, -1)
  end.

(** On one axis, with the window [[t, t + view_size)] and the grid
    [[0, len)]: whether the two slices of the copy have shapes that do not
    broadcast.  This is so when the window begins 1 to [view_size - 1]
    cells past the end of the grid, or ends before the grid begins while
    the negative stop [t + view_size] still leaves two or more rows of the
    grid in the source slice. *)
Definition copy_fails (view_size len t : Z) : bool :=
  ((len <? t) && (t <? len + view_size)) ||
  ((t + view_size <? 0) && (2 <=? len + t + view_size)).

(** * Lemmas on the array operations *)

Lemma in_boundsb_spec s x y : in_boundsb s x y = true <-> in_bounds s x y.
Proof. unfold in_boundsb, in_bounds. lia. Qed.

Lemma elem_of_range n k : k ∈ range n <-> 0 <= k < n.
Proof. unfold range. rewrite elem_of_seqZ. lia. Qed.

Lemma elem_of_pairs n0 n1 i j :
  (i, j) ∈ pairs n0 n1 <-> (0 <= i < n0 /\ 0 <= j < n1).
Proof.
  unfold pairs. rewrite list_elem_of_In, in_flat_map. split.
  - intros (i' & Hi & Hj). apply list_elem_of_In, elem_of_range in Hi.
    apply list_elem_of_In, list_elem_of_fmap in Hj as (j' & Heq & Hj).
    apply elem_of_range in Hj. inversion Heq; subst. lia.
  - intros [Hi Hj]. exists i. split.
    + apply list_elem_of_In, elem_of_range, Hi.
    + apply list_elem_of_In, list_elem_of_fmap. exists j. split; [done|].
      apply elem_of_range, Hj.
Qed.

Lemma length_write buf kv : length (write buf kv) = length buf.
Proof. unfold write. destruct (fst kv <? 0); [done|]. apply length_insert. Qed.

Lemma length_fold_write ws buf :
  length (fold_left write ws buf) = length buf.
Proof.
  revert buf. induction ws as [|kv ws IH]; intros buf; simpl; [done|].
  rewrite IH. apply length_write.
Qed.

(** A cell that no write addresses keeps its value. *)
Lemma fold_write_other ws buf (k : nat) :
  (forall v, (Z.of_nat k, v) ∉ ws) ->
  fold_left write ws buf !! k = buf !! k.
Proof.
  revert buf. induction ws as [|[k0 v0] ws IH]; intros buf Hk; simpl; [done|].
  rewrite IH.
  - unfold write; simpl. destruct (k0 <? 0) eqn:E; [done|].
    apply list_lookup_insert_ne. intros Heq.
    apply (Hk v0). rewrite <- Heq, Z2Nat.id by lia. left.
  - intros v Hin. apply (Hk v). right. exact Hin.
Qed.

(** A cell that the writes address with a single value holds it. *)
Lemma fold_write_hit ws buf (k : nat) v :
  (Z.of_nat k, v) ∈ ws ->
  (forall v', (Z.of_nat k, v') ∈ ws -> v' = v) ->
  (k < length buf)%nat ->
  fold_left write ws buf !! k = Some v.
Proof.
  revert buf. induction ws as [|[k0 v0] ws IH]; intros buf Hin Hfun Hlen; simpl.
  - inversion Hin.
  - destruct (decide ((Z.of_nat k, v) ∈ ws)) as [Hin'|Hout].
    + apply IH; [exact Hin'| |by rewrite length_write].
      intros v' Hv'. apply Hfun. right. exact Hv'.
    + apply elem_of_cons in Hin as [Heq|Hin']; [|contradiction].
      inversion Heq; subst k0 v0.
      rewrite fold_write_other.
      * unfold write; simpl.
        destruct (Z.of_nat k <? 0) eqn:E; [lia|].
        rewrite Nat2Z.id. by apply list_lookup_insert_eq.
      * intros v' Hv'. apply Hout.
        rewrite <- (Hfun v') at 1; [exact Hv'|]. right. exact Hv'.
Qed.

Lemma getitem_slice_inside a lo0 hi0 lo1 hi1 :
  0 <= lo0 <= hi0 -> hi0 <= shape0 a ->
  0 <= lo1 <= hi1 -> hi1 <= shape1 a ->
  getitem_slice a lo0 hi0 lo1 hi1 =
  mk_ndarray (base a) (offset a + lo0 * stride0 a + lo1 * stride1 a)
             (hi0 - lo0) (hi1 - lo1) (stride0 a) (stride1 a).
Proof.
  intros H0 H0' H1 H1'. unfold getitem_slice, adjust_bound.
  repeat match goal with
         | |- context [?x <? 0] => destruct (Z.ltb_spec x 0); [lia|]
         end.
  rewrite !Z.min_l, !Z.max_l by lia. reflexivity.
Qed.

Lemma setitem_array_same_shape dst src h buf :
  shape0 src = shape0 dst -> shape1 src = shape1 dst ->
  h !! base dst = Some buf ->
  setitem_array dst src h =
  (Ret tt,
   <[base dst :=
       fold_left write
         (map (fun ij => (flat_index dst (fst ij) (snd ij),
                          getitem h src (fst ij) (snd ij)))
              (pairs (shape0 dst) (shape1 dst))) buf]> h).
Proof.
  intros E0 E1 Hb. unfold setitem_array.
  rewrite E0, E1, !Z.eqb_refl, Hb. reflexivity.
Qed.

(** Reading the grid is not affected by a buffer allocated behind it. *)
Lemma getitem_app h h' a i j :
  (base a < length h)%nat -> getitem (h ++ h') a i j = getitem h a i j.
Proof. intros Hb. unfold getitem. by rewrite lookup_app_l. Qed.

Lemma c_contiguous_base h a :
  c_contiguous h a -> (base a < length h)%nat.
Proof.
  intros (_ & _ & _ & _ & _ & Hb).
  destruct (h !! base a) eqn:E; [|discriminate].
  eapply lookup_lt_Some, E.
Qed.

(** ** The corner of the window *)

Lemma top_left_cases w view_size :
  valid_dir (agent_dir (self w)) ->
  exists tx ty,
    top_left view_size w = (Ret (tx, ty), w) /\
    ((agent_dir (self w) = 0 /\ tx = fst (agent_pos (self w)) /\
      ty = snd (agent_pos (self w)) - view_size / 2) \/
     (agent_dir (self w) = 1 /\ tx = fst (agent_pos (self w)) - view_size / 2 /\
      ty = snd (agent_pos (self w))) \/
     (agent_dir (self w) = 2 /\ tx = fst (agent_pos (self w)) - view_size + 1 /\
      ty = snd (agent_pos (self w)) - view_size / 2) \/
     (agent_dir (self w) = 3 /\ tx = fst (agent_pos (self w)) - view_size / 2 /\
      ty = snd (agent_pos (self w)) - view_size + 1)).
Proof.
  intros Hd. unfold valid_dir in Hd.
  assert (agent_dir (self w) = 0 \/ agent_dir (self w) = 1 \/
          agent_dir (self w) = 2 \/ agent_dir (self w) = 3) as Hc by lia.
  unfold top_left, bind, get_self.
  destruct Hc as [E|[E|[E|E]]]; rewrite E; simpl; eexists _, _;
    (split; [reflexivity|]); tauto.
Qed.

Lemma top_left_det w view_size tx ty tx' ty' w1 w2 :
  top_left view_size w = (Ret (tx, ty), w1) ->
  top_left view_size w = (Ret (tx', ty'), w2) ->
  tx = tx' /\ ty = ty'.
Proof. intros H1 H2. rewrite H1 in H2. by inversion H2. Qed.

(** The window always contains the cell the agent stands on. *)
Lemma top_left_around_agent w view_size tx ty :
  valid_dir (agent_dir (self w)) -> 1 <= view_size ->
  top_left view_size w = (Ret (tx, ty), w) ->
  tx <= fst (agent_pos (self w)) < tx + view_size /\
  ty <= snd (agent_pos (self w)) < ty + view_size.
Proof.
  intros Hd Hv Ht.
  destruct (top_left_cases w view_size Hd) as (tx' & ty' & Ht' & Hc).
  destruct (top_left_det _ _ _ _ _ _ _ _ Ht Ht') as [-> ->].
  assert (0 <= view_size / 2 < view_size)
    by (split; [apply Z.div_pos; lia | apply Z.div_lt; lia]).
  lia.
Qed.

(** ** The window before rotation *)

Lemma getitem_ext h a b i j i' j' :
  base a = base b -> flat_index a i j = flat_index b i' j' ->
  getitem h a i j = getitem h b i' j'.
Proof. intros Hb Hf. unfold getitem. by rewrite Hb, Hf. Qed.

(** Two cells of a row-major square have the same flat index only when
    they are the same cell. *)
Lemma row_major_inj n i j i' j' :
  0 <= j < n -> 0 <= j' < n -> i * n + j = i' * n + j' -> i = i' /\ j = j'.
Proof. intros Hj Hj' E. assert (i = i') by nia. subst. lia. Qed.

Lemma clipped_window_run w view_size tx ty :
  valid_world w -> 1 <= view_size ->
  top_left view_size w = (Ret (tx, ty), w) ->
  exists buf,
    clipped_window view_size w =
      (Ret (mk_ndarray (length (mem w)) 0 view_size view_size view_size 1),
       mk_world (mem w ++ [buf]) (self w)) /\
    length buf = Z.to_nat (view_size * view_size) /\
    forall i j, 0 <= i < view_size -> 0 <= j < view_size ->
      buf !! Z.to_nat (i * view_size + j) =
      Some (window_cell (mem w) (self w) tx ty i j).
Proof.
  intros (Hc & Hin & Hd) Hv Ht.
  destruct (top_left_around_agent w view_size tx ty Hd Hv Ht) as [Hx Hy].
  pose proof (c_contiguous_base _ _ Hc) as Hbase.
  destruct Hc as (Ho & Hs0 & Hs1 & Hst0 & Hst1 & Hlen).
  destruct Hin as [Hax Hay]. unfold width, height in Hax, Hay.
  set (h := mem w) in *. set (g := grid (self w)) in *.
  set (fov := mk_ndarray (length h) 0 view_size view_size view_size 1).
  set (gx0 := Z.max tx 0). set (gy0 := Z.max ty 0).
  set (gx1 := Z.min (tx + view_size) (shape0 g)).
  set (gy1 := Z.min (ty + view_size) (shape1 g)).
  set (px0 := Z.max 0 (- tx)). set (py0 := Z.max 0 (- ty)).
  set (dst := getitem_slice fov px0 (px0 + (gx1 - gx0)) py0 (py0 + (gy1 - gy0))).
  set (src := getitem_slice g gx0 gx1 gy0 gy1).
  assert (Hdst : dst = mk_ndarray (length h) (px0 * view_size + py0)
                         (gx1 - gx0) (gy1 - gy0) view_size 1).
  { unfold dst. rewrite getitem_slice_inside; simpl; [f_equal|..]; lia. }
  assert (Hsrc : src = mk_ndarray (base g)
                         (offset g + gx0 * stride0 g + gy0 * stride1 g)
                         (gx1 - gx0) (gy1 - gy0) (stride0 g) (stride1 g)).
  { unfold src. rewrite getitem_slice_inside; [reflexivity|..]; lia. }
  set (h1 := h ++ [replicate (Z.to_nat (view_size * view_size))
                             (ObjectTypes.value ObjectTypes.wall)]).
  set (ws := map (fun ij => (flat_index dst (fst ij) (snd ij),
                             getitem h1 src (fst ij) (snd ij)))
                 (pairs (shape0 dst) (shape1 dst))).
  exists (fold_left write ws
            (replicate (Z.to_nat (view_size * view_size))
                       (ObjectTypes.value ObjectTypes.wall))).
  split; [|split].
  - unfold clipped_window, bind, get_self. rewrite Ht.
    unfold on_mem at 1, np_full.
    replace ((view_size <? 0) || (view_size <? 0)) with false by lia.
    cbn [mem self]. fold h g fov gx0 gy0 gx1 gy1 px0 py0. fold dst src h1.
    unfold on_mem. cbn [mem self].
    rewrite (setitem_array_same_shape dst src h1
               (replicate (Z.to_nat (view_size * view_size))
                          (ObjectTypes.value ObjectTypes.wall))).
    + fold ws. unfold ret. f_equal. f_equal.
      rewrite Hdst. cbn [base]. unfold h1.
      rewrite insert_app_r_alt by lia. by rewrite Nat.sub_diag.
    + by rewrite Hdst, Hsrc.
    + by rewrite Hdst, Hsrc.
    + rewrite Hdst. cbn [base]. unfold h1. by rewrite list_lookup_middle.
  - by rewrite length_fold_write, length_replicate.
  - intros i j Hi Hj. unfold window_cell. fold g.
    destruct (in_boundsb (self w) (tx + i) (ty + j)) eqn:Eb.
    + apply in_boundsb_spec in Eb. destruct Eb as [Ebx Eby].
      unfold width, height in Ebx, Eby. fold g in Ebx, Eby.
      assert (Hk : Z.of_nat (Z.to_nat (i * view_size + j)) =
                   flat_index dst (tx + i - gx0) (ty + j - gy0)).
      { rewrite Z2Nat.id by nia. rewrite Hdst. unfold flat_index. simpl. nia. }
      assert (Hval : getitem h1 src (tx + i - gx0) (ty + j - gy0) =
                     getitem h g (tx + i) (ty + j)).
      { unfold h1. rewrite getitem_app by (by rewrite Hsrc).
        apply getitem_ext; [by rewrite Hsrc|].
        rewrite Hsrc. unfold flat_index. simpl. lia. }
      apply fold_write_hit.
      * rewrite Hk, <- Hval. unfold ws.
        apply list_elem_of_fmap.
        exists (tx + i - gx0, ty + j - gy0). split; [reflexivity|].
        apply elem_of_pairs. rewrite Hdst. simpl. lia.
      * intros v' Hv'. unfold ws in Hv'.
        apply list_elem_of_fmap in Hv' as ([i1 j1] & Heq & Hp).
        apply elem_of_pairs in Hp. rewrite Hdst in Hp. simpl in Hp.
        inversion Heq as [[Hf Hv1]]. simpl in Hf. rewrite Hk in Hf.
        rewrite Hdst in Hf. unfold flat_index in Hf. simpl in Hf.
        destruct (row_major_inj view_size (px0 + (tx + i - gx0))
                    (py0 + (ty + j - gy0)) (px0 + i1) (py0 + j1))
          as [Hi1 Hj1]; [lia|lia|lia|].
        replace i1 with (tx + i - gx0) by lia.
        replace j1 with (ty + j - gy0) by lia. exact Hval.
      * rewrite length_replicate. nia.
    + rewrite fold_write_other.
      * apply lookup_replicate. split; [reflexivity|nia].
      * intros v Hin. unfold ws in Hin.
        apply list_elem_of_fmap in Hin as ([i1 j1] & Heq & Hp).
        apply elem_of_pairs in Hp. rewrite Hdst in Hp. simpl in Hp.
        inversion Heq as [[Hf Hv1]]. simpl in Hf.
        rewrite Z2Nat.id in Hf by nia.
        rewrite Hdst in Hf. unfold flat_index in Hf. simpl in Hf.
        destruct (row_major_inj view_size i j (px0 + i1) (py0 + j1))
          as [Hi1 Hj1]; [lia|lia|lia|].
        assert (in_boundsb (self w) (tx + i) (ty + j) = true) as Hb.
        { apply in_boundsb_spec. unfold in_bounds, width, height.
          fold g. lia. }
        congruence.
Qed.

(** ** Rotation *)

Lemma flat_index_np_rot90 a i j :
  0 < shape1 a ->
  flat_index (np_rot90 a) i j = flat_index a j (shape1 a - 1 - i).
Proof.
  intros Hs. unfold np_rot90, transpose, flip1, flat_index; simpl.
  destruct (Z.ltb_spec 0 (shape1 a)); lia.
Qed.

Lemma flat_index_rotate_left a i j :
  0 < shape0 a ->
  flat_index (rotate_left a) i j = flat_index a (shape0 a - 1 - j) i.
Proof.
  intros Hs. unfold rotate_left, np_rot90, transpose, flip1, flat_index; simpl.
  destruct (Z.ltb_spec 0 (shape0 a)); lia.
Qed.

Lemma base_rotate_left a : base (rotate_left a) = base a.
Proof. reflexivity. Qed.

Lemma shape_rotate_left a :
  shape0 (rotate_left a) = shape1 a /\ shape1 (rotate_left a) = shape0 a.
Proof. split; reflexivity. Qed.

Lemma getitem_rotate_left h a i j :
  0 < shape0 a ->
  getitem h (rotate_left a) i j =
  getitem h a (fst (turn (shape0 a) (i, j))) (snd (turn (shape0 a) (i, j))).
Proof.
  intros Hs. apply getitem_ext; [reflexivity|].
  by apply flat_index_rotate_left.
Qed.

Lemma iter_rotate_left_shape n k a :
  shape0 a = n -> shape1 a = n ->
  base (Nat.iter k rotate_left a) = base a /\
  shape0 (Nat.iter k rotate_left a) = n /\
  shape1 (Nat.iter k rotate_left a) = n.
Proof.
  intros H0 H1. induction k as [|k (Hb & IH0 & IH1)]; simpl; [done|].
  repeat split; [exact Hb|exact IH1|exact IH0].
Qed.

Lemma turn_iter_comm n k ij :
  Nat.iter k (turn n) (turn n ij) = turn n (Nat.iter k (turn n) ij).
Proof. induction k as [|k IH]; simpl; [done|]. by rewrite IH. Qed.

Lemma getitem_iter_rotate_left h n k a i j :
  shape0 a = n -> shape1 a = n -> 0 < n ->
  getitem h (Nat.iter k rotate_left a) i j =
  getitem h a (fst (Nat.iter k (turn n) (i, j)))
              (snd (Nat.iter k (turn n) (i, j))).
Proof.
  intros H0 H1 Hn. revert i j.
  induction k as [|k IH]; intros i j; simpl; [done|].
  destruct (iter_rotate_left_shape n k a H0 H1) as (_ & Hk0 & _).
  rewrite getitem_rotate_left by lia.
  rewrite Hk0, IH, <- surjective_pairing.
  by rewrite turn_iter_comm.
Qed.

(** ** Writes into the grid *)

Lemma adjust_index_inside k len :
  0 <= k < len -> adjust_index k len = Some k.
Proof.
  intros Hk. unfold adjust_index.
  destruct (Z.ltb_spec k (- len)); [lia|].
  destruct (Z.leb_spec len k); [lia|]. simpl.
  destruct (Z.ltb_spec k 0); [lia|done].
Qed.

Lemma adjust_index_Some k len k' :
  adjust_index k len = Some k' -> 0 <= k' < len.
Proof.
  unfold adjust_index.
  destruct (Z.ltb_spec k (- len)); [done|].
  destruct (Z.leb_spec len k); [done|]. simpl.
  destruct (Z.ltb_spec k 0); intros [= <-]; lia.
Qed.

(** The effect of a single element write on what a view of the same
    buffer reads. *)
Lemma getitem_insert_write h a buf k v i j :
  h !! base a = Some buf -> 0 <= k < Z.of_nat (length buf) ->
  0 <= flat_index a i j ->
  getitem (<[base a := write buf (k, v)]> h) a i j =
  if flat_index a i j =? k then v else getitem h a i j.
Proof.
  intros Hb Hk Hf. unfold getitem.
  rewrite list_lookup_insert_eq by (eapply lookup_lt_Some, Hb).
  rewrite Hb. destruct (Z.ltb_spec (flat_index a i j) 0); [lia|].
  unfold write; simpl. destruct (Z.ltb_spec k 0); [lia|].
  destruct (Z.eqb_spec (flat_index a i j) k) as [->|Hne].
  - by rewrite list_lookup_insert_eq by lia.
  - rewrite list_lookup_insert_ne by lia. done.
Qed.

(** A write into one buffer is not seen through a view of another. *)
Lemma getitem_insert_other h b buf a i j :
  base a <> b -> getitem (<[b := buf]> h) a i j = getitem h a i j.
Proof.
  intros Hne. unfold getitem. by rewrite list_lookup_insert_ne.
Qed.

(** ** One call of [get_field_of_view] *)

Lemma top_left_world view_size w r w' :
  top_left view_size w = (r, w') -> w' = w.
Proof.
  unfold top_left, bind, get_self, ret, raise.
  repeat match goal with
         | |- context [if ?b then _ else _] => destruct b
         end; by intros [= _ <-].
Qed.

Lemma setitem_array_mem dst src h r h' :
  setitem_array dst src h = (r, h') ->
  h' = h \/ exists buf', h' = <[base dst := buf']> h.
Proof.
  unfold setitem_array.
  destruct (_ && _); [|intros [= _ <-]; by left].
  destruct (h !! base dst); intros [= _ <-]; [right; eauto|by left].
Qed.

(** Whatever the pose and the size, a window that is returned lives in a
    buffer allocated by the call, behind the buffers that existed. *)
Lemma clipped_window_mem w view_size fov w' :
  clipped_window view_size w = (Ret fov, w') ->
  self w' = self w /\
  fov = mk_ndarray (length (mem w)) 0 view_size view_size view_size 1 /\
  exists buf, mem w' = mem w ++ [buf].
Proof.
  unfold clipped_window, bind, get_self.
  destruct (top_left view_size w) as [[[tx ty]|e] w1] eqn:Et; [|done].
  apply top_left_world in Et as ->.
  unfold on_mem at 1, np_full.
  destruct ((view_size <? 0) || (view_size <? 0)); [done|].
  unfold on_mem. cbn [mem self].
  match goal with
  | |- context [setitem_array ?d ?s ?h] =>
      destruct (setitem_array d s h) as [[[]|e] h'] eqn:Es; [|done];
      apply setitem_array_mem in Es
  end.
  unfold ret. intros [= <- <-]. cbn [mem self].
  repeat split.
  destruct Es as [->|[buf' ->]]; [eauto|].
  unfold getitem_slice. cbn [base].
  rewrite insert_app_r_alt by lia. rewrite Nat.sub_diag. simpl. eauto.
Qed.

Lemma get_field_of_view_run w view_size tx ty :
  valid_world w -> 1 <= view_size ->
  top_left view_size w = (Ret (tx, ty), w) ->
  exists buf gbuf,
    clipped_window view_size w =
      (Ret (fresh_window (mem w) view_size),
       mk_world (mem w ++ [buf]) (self w)) /\
    length buf = Z.to_nat (view_size * view_size) /\
    (forall i j, 0 <= i < view_size -> 0 <= j < view_size ->
       buf !! Z.to_nat (i * view_size + j) =
       Some (window_cell (mem w) (self w) tx ty i j)) /\
    mem w !! base (grid (self w)) = Some gbuf /\
    get_field_of_view view_size w =
      (Ret (Nat.iter (Z.to_nat (agent_dir (self w) + 1)) rotate_left
                     (fresh_window (mem w) view_size)),
       mk_world
         (<[base (grid (self w)) :=
              write gbuf
                (flat_index (grid (self w)) (width (self w) / 2)
                            (height (self w) - 1),
                 ObjectTypes.value ObjectTypes.agent)]> (mem w ++ [buf]))
         (self w)).
Proof.
  intros Hw Hv Ht.
  destruct (clipped_window_run w view_size tx ty Hw Hv Ht)
    as (buf & Hrun & Hlen & Hcells).
  destruct Hw as (Hc & [Hax Hay] & Hd).
  pose proof (c_contiguous_base _ _ Hc) as Hbase.
  destruct (mem w !! base (grid (self w))) as [gbuf|] eqn:Eg;
    [|by apply lookup_ge_None in Eg; lia].
  exists buf, gbuf. repeat split; try done.
  unfold get_field_of_view, bind, get_self. unfold fresh_window. rewrite Hrun.
  unfold on_mem, setitem_index. cbn [mem self fst snd].
  unfold width, height in *.
  rewrite !adjust_index_inside;
    [|lia|split; [apply Z.div_pos; lia|apply Z.div_lt_upper_bound; lia]].
  by rewrite lookup_app_l, Eg by lia.
Qed.

(** Reading the fresh window out of the heap. *)
Lemma getitem_fresh_window h buf view_size i j :
  0 <= i -> 0 <= j < view_size ->
  getitem (h ++ [buf]) (fresh_window h view_size) i j =
  default 0 (buf !! Z.to_nat (i * view_size + j)).
Proof.
  intros Hi Hj. unfold getitem, fresh_window, flat_index. cbn.
  rewrite list_lookup_middle by done.
  destruct (Z.ltb_spec (0 + i * view_size + j * 1) 0); [nia|].
  do 2 f_equal. lia.
Qed.

Lemma getitem_np_rot90 h a i j :
  0 < shape1 a ->
  getitem h (np_rot90 a) i j = getitem h a j (shape1 a - 1 - i).
Proof.
  intros Hs. apply getitem_ext; [reflexivity|].
  by apply flat_index_np_rot90.
Qed.

Lemma turn_range n ij :
  0 <= fst ij < n /\ 0 <= snd ij < n ->
  0 <= fst (turn n ij) < n /\ 0 <= snd (turn n ij) < n.
Proof. unfold turn; simpl. lia. Qed.

Lemma turn_iter_range n k ij :
  0 <= fst ij < n /\ 0 <= snd ij < n ->
  0 <= fst (Nat.iter k (turn n) ij) < n /\
  0 <= snd (Nat.iter k (turn n) ij) < n.
Proof.
  intros H. induction k as [|k IH]; simpl; [done|]. by apply turn_range.
Qed.

Lemma tolist_ext h h' a b :
  shape0 a = shape0 b -> shape1 a = shape1 b ->
  (forall i j, 0 <= i < shape0 a -> 0 <= j < shape1 a ->
     getitem h a i j = getitem h' b i j) ->
  tolist h a = tolist h' b.
Proof.
  intros E0 E1 H. unfold tolist. rewrite <- E0, <- E1.
  apply map_ext_in. intros i Hi. apply map_ext_in. intros j Hj.
  apply list_elem_of_In, elem_of_range in Hi, Hj. by apply H.
Qed.

(** The window returned by a call, read after the call: its cells are
    those of the clipped window, which are those the grid held at entry. *)
Lemma get_field_of_view_cells w view_size tx ty :
  valid_world w -> 1 <= view_size ->
  top_left view_size w = (Ret (tx, ty), w) ->
  exists fov0 w0 fov w',
    clipped_window view_size w = (Ret fov0, w0) /\
    get_field_of_view view_size w = (Ret fov, w') /\
    fov = Nat.iter (Z.to_nat (agent_dir (self w) + 1)) rotate_left fov0 /\
    (shape0 fov0 = view_size /\ shape1 fov0 = view_size) /\
    (forall a i j, base a = base fov0 ->
       getitem (mem w') a i j = getitem (mem w0) a i j) /\
    (forall i j, 0 <= i < view_size -> 0 <= j < view_size ->
       getitem (mem w0) fov0 i j = window_cell (mem w) (self w) tx ty i j).
Proof.
  intros Hw Hv Ht.
  destruct (get_field_of_view_run w view_size tx ty Hw Hv Ht)
    as (buf & gbuf & Hclip & Hlen & Hcells & Hg & Hrun).
  pose proof (c_contiguous_base _ _ (proj1 Hw)) as Hbase.
  eexists _, _, _, _. split; [exact Hclip|]. split; [exact Hrun|].
  split; [reflexivity|]. split; [done|]. split.
  - intros a i j Ha. cbn [mem]. apply getitem_insert_other.
    rewrite Ha. unfold fresh_window. simpl. lia.
  - intros i j Hi Hj. cbn [mem]. rewrite getitem_fresh_window by lia.
    by rewrite Hcells.
Qed.

(** ** Scanning the grid *)

Lemma combine_fst_snd {A B} (l : list (A * B)) :
  combine (map fst l) (map snd l) = l.
Proof. induction l as [|[a b] l IH]; simpl; [done|]. by rewrite IH. Qed.

Lemma flat_map_map {A B C} (f : B -> list C) (g : A -> B) (l : list A) :
  flat_map f (map g l) = flat_map (fun x => f (g x)) l.
Proof. induction l as [|x l IH]; simpl; [done|]. by rewrite IH. Qed.

Lemma flat_map_ext_in {A B} (f g : A -> list B) (l : list A) :
  (forall x, In x l -> f x = g x) -> flat_map f l = flat_map g l.
Proof.
  induction l as [|x l IH]; simpl; intros H; [done|].
  rewrite H by (by left). rewrite IH; [done|]. intros y Hy. apply H. by right.
Qed.

Lemma filter_flat_map {A B} (p : B -> bool) (f : A -> list B) (l : list A) :
  List.filter p (flat_map f l) = flat_map (fun x => List.filter p (f x)) l.
Proof.
  induction l as [|x l IH]; simpl; [done|].
  by rewrite List.filter_app, IH.
Qed.

Lemma filter_map_singletons {A B} (p : B -> bool) (f : A -> B) (l : list A) :
  List.filter p (map f l) =
  flat_map (fun x => if p (f x) then [f x] else []) l.
Proof.
  induction l as [|x l IH]; simpl; [done|].
  rewrite IH. by destruct (p (f x)).
Qed.

Lemma imap_pair_range {A} (f : Z -> A) (n : Z) :
  imap pair (map f (range n)) = map (fun k => (Z.to_nat k, f k)) (range n).
Proof.
  apply list_eq. intros i.
  change (map f (range n)) with (f <$> range n).
  change (map (fun k => (Z.to_nat k, f k)) (range n))
    with ((fun k => (Z.to_nat k, f k)) <$> range n).
  rewrite list_lookup_imap, !list_lookup_fmap. unfold range.
  destruct (seqZ 0 n !! i) as [k|] eqn:E; simpl; [|done].
  apply lookup_seqZ in E as [-> _]. by rewrite Z.add_0_l, Nat2Z.id.
Qed.

(** [np.where(a == t)] lists the matching coordinates of a row-major
    scan. *)
Lemma np_where_np_equal h a t :
  np_where (np_equal h a t) =
  (map fst (List.filter (fun ij => getitem h a (fst ij) (snd ij) =? t)
                        (pairs (shape0 a) (shape1 a))),
   map snd (List.filter (fun ij => getitem h a (fst ij) (snd ij) =? t)
                        (pairs (shape0 a) (shape1 a)))).
Proof.
  unfold np_where, np_equal, tolist, pairs.
  rewrite map_map, imap_pair_range, flat_map_map, filter_flat_map.
  assert (forall l1 l2 : list (Z * Z), l1 = l2 ->
            (map fst l1, map snd l1) = (map fst l2, map snd l2)) as Hpair
    by (by intros ? ? ->).
  apply Hpair. apply flat_map_ext_in. intros i Hi.
  apply list_elem_of_In, elem_of_range in Hi.
  cbn [fst snd]. rewrite map_map, imap_pair_range, flat_map_map.
  rewrite filter_map_singletons.
  apply flat_map_ext_in. intros j Hj.
  apply list_elem_of_In, elem_of_range in Hj.
  cbn [fst snd]. by rewrite !Z2Nat.id by lia.
Qed.

Lemma seqZ_sorted m n : StronglySorted Z.lt (seqZ m n).
Proof.
  remember (Z.to_nat n) as k eqn:Hk. revert m n Hk.
  induction k as [|k IH]; intros m n Hk.
  - rewrite seqZ_nil by lia. constructor.
  - rewrite seqZ_cons by lia. constructor; [apply IH; lia|].
    apply Forall_forall. intros x Hx.
    apply elem_of_seqZ in Hx. lia.
Qed.

Lemma row_sorted i js :
  StronglySorted Z.lt js ->
  StronglySorted lex_lt (map (fun j => (i, j)) js).
Proof.
  induction 1 as [|j js Hjs IH Hlt]; simpl; constructor; [done|].
  apply Forall_forall. intros [i1 j1] H1.
  apply list_elem_of_fmap in H1 as (j' & [= -> ->] & Hj').
  rewrite Forall_forall in Hlt. right. simpl. split; [done|]. by apply Hlt.
Qed.

Lemma rows_sorted rows js :
  StronglySorted Z.lt rows -> StronglySorted Z.lt js ->
  StronglySorted lex_lt (flat_map (fun i => map (fun j => (i, j)) js) rows).
Proof.
  intros Hrows Hjs.
  induction Hrows as [|i rows Hrows IH Hlt]; simpl; [constructor|].
  apply StronglySorted_app_2; [|by apply row_sorted|exact IH].
  intros [i1 j1] [i2 j2] H1 H2.
  apply list_elem_of_fmap in H1 as (? & [= -> ->] & _).
  apply list_elem_of_In, in_flat_map in H2 as (i' & Hi' & H2).
  apply list_elem_of_In, list_elem_of_fmap in H2 as (? & [= -> ->] & _).
  rewrite Forall_forall in Hlt. left. simpl. by apply Hlt, list_elem_of_In.
Qed.

Lemma pairs_sorted n0 n1 : StronglySorted lex_lt (pairs n0 n1).
Proof. apply rows_sorted; apply seqZ_sorted. Qed.

Lemma StronglySorted_filter {A} (R : A -> A -> Prop) (p : A -> bool) l :
  StronglySorted R l -> StronglySorted R (List.filter p l).
Proof.
  induction 1 as [|x l Hl IH Hx]; simpl; [constructor|].
  destruct (p x); [|done]. constructor; [done|].
  rewrite Forall_forall in Hx |- *. intros y Hy.
  apply Hx. apply list_elem_of_In in Hy. apply list_elem_of_In.
  by apply filter_In in Hy as [? _].
Qed.

(** ** The cell in front of the agent *)

Lemma wrap64_inside z : - 2 ^ 63 <= z < 2 ^ 63 -> wrap64 z = z.
Proof.
  intros Hz. unfold wrap64.
  change (2 ^ 64) with (2 * 2 ^ 63). rewrite Z.mod_small; lia.
Qed.

(** The table holds the vector of each direction at its value. *)
Lemma DIR_TO_VEC_direction {S} (d : Direction.t) (s : S) :
  list_getitem DIR_TO_VEC d s = (Ret (direction_vector d), s).
Proof. by destruct d. Qed.

(** X15: for a direction below [-4] or above [3] [front_pos] raises
    [IndexError] and leaves the store unchanged. *)
Lemma front_pos_outside_table w :
  agent_dir (self w) < -4 \/ 4 <= agent_dir (self w) ->
  front_pos w = (Raise IndexError, w).
Proof.
  intros Hd. unfold front_pos, bind, get_self, list_getitem, adjust_index.
  cbn [length DIR_TO_VEC].
  destruct (Z.ltb_spec (agent_dir (self w)) (- Z.of_nat 4)); [done|].
  destruct (Z.leb_spec (Z.of_nat 4) (agent_dir (self w))); [done|]. lia.
Qed.

(** X14: for a direction in [-4 .. -1] and coordinates strictly inside
    the [int64] range, [front_pos] raises nothing: the table is read from
    its end, so the result is [agent_pos] plus the entry of direction
    [d + 4], and the store is unchanged. *)
Lemma front_pos_negative_table w :
  -4 <= agent_dir (self w) <= -1 ->
  - 2 ^ 63 < fst (agent_pos (self w)) < 2 ^ 63 - 1 ->
  - 2 ^ 63 < snd (agent_pos (self w)) < 2 ^ 63 - 1 ->
  exists v,
    DIR_TO_VEC !! Z.to_nat (agent_dir (self w) + 4) = Some v /\
    front_pos w =
      (Ret (fst (agent_pos (self w)) + fst v,
            snd (agent_pos (self w)) + snd v), w).
Proof.
  intros Hd Hx Hy.
  assert (agent_dir (self w) = -4 \/ agent_dir (self w) = -3 \/
          agent_dir (self w) = -2 \/ agent_dir (self w) = -1) as Hc by lia.
  unfold front_pos, bind, get_self.
  destruct Hc as [E|[E|[E|E]]]; rewrite E; eexists;
    (split; [reflexivity|]).
  - change (list_getitem DIR_TO_VEC (-4) w) with (Ret (1, 0), w).
    unfold ret, np_add. cbn [fst snd]. by rewrite !wrap64_inside by lia.
  - change (list_getitem DIR_TO_VEC (-3) w) with (Ret (0, 1), w).
    unfold ret, np_add. cbn [fst snd]. by rewrite !wrap64_inside by lia.
  - change (list_getitem DIR_TO_VEC (-2) w) with (Ret (-1, 0), w).
    unfold ret, np_add. cbn [fst snd]. by rewrite !wrap64_inside by lia.
  - change (list_getitem DIR_TO_VEC (-1) w) with (Ret (0, -1), w).
    unfold ret, np_add. cbn [fst snd]. by rewrite !wrap64_inside by lia.
Qed.

(** X16: for any direction outside 0..3 and any [view_size],
    [get_field_of_view] fails its [assert] before anything is allocated or
    written: it raises [AssertionError] and leaves the store unchanged. *)
Lemma get_field_of_view_invalid_direction w view_size :
  ~ valid_dir (agent_dir (self w)) ->
  get_field_of_view view_size w = (Raise AssertionError, w).
Proof.
  intros Hd. unfold valid_dir in Hd.
  unfold get_field_of_view, clipped_window, top_left, bind, get_self.
  repeat match goal with
         | |- context [?x =? ?y] => destruct (Z.eqb_spec x y); [lia|]
         end.
  reflexivity.
Qed.

(** ** A window that misses the grid *)

(** On one axis, with the window [[t, t + view_size)] beside the grid
    [[0, len)]: when the shapes of the two slices pass the broadcasting
    test, the target slice is empty on that axis. *)
Lemma off_grid_extent view_size len t :
  0 <= len -> 1 <= view_size -> t + view_size <= 0 \/ len <= t ->
  let g0 := Z.max t 0 in
  let g1 := Z.min (t + view_size) len in
  let p0 := Z.max 0 (- t) in
  let src_n := Z.max (adjust_bound g1 len - adjust_bound g0 len) 0 in
  let dst_n :=
    Z.max (adjust_bound (p0 + (g1 - g0)) view_size
           - adjust_bound p0 view_size) 0 in
  src_n = dst_n \/ src_n = 1 -> dst_n = 0.
Proof.
  intros Hlen Hv Hout. cbv zeta. unfold adjust_bound.
  repeat match goal with
         | |- context [?x <? 0] => destruct (Z.ltb_spec x 0)
         end; lia.
Qed.

Lemma pairs_empty n0 n1 : n0 = 0 \/ n1 = 0 -> pairs n0 n1 = [].
Proof.
  unfold pairs, range. intros [-> | ->]; [done|].
  induction (seqZ 0 n0) as [|i l IH]; simpl; [done|exact IH].
Qed.

(** The steps of [clipped_window] once the corner is known and the
    window is allocated. *)
Lemma clipped_window_steps w view_size tx ty :
  0 <= view_size ->
  top_left view_size w = (Ret (tx, ty), w) ->
  clipped_window view_size w =
  let fov := fresh_window (mem w) view_size in
  let g := grid (self w) in
  let gx0 := Z.max tx 0 in
  let gy0 := Z.max ty 0 in
  let gx1 := Z.min (tx + view_size) (shape0 g) in
  let gy1 := Z.min (ty + view_size) (shape1 g) in
  let px0 := Z.max 0 (- tx) in
  let py0 := Z.max 0 (- ty) in
  match setitem_array
          (getitem_slice fov px0 (px0 + (gx1 - gx0)) py0 (py0 + (gy1 - gy0)))
          (getitem_slice g gx0 gx1 gy0 gy1)
          (mem w ++ [replicate (Z.to_nat (view_size * view_size))
                               (ObjectTypes.value ObjectTypes.wall)])
  with
  | (Ret _, h') => (Ret fov, mk_world h' (self w))
  | (Raise e, h') => (Raise e, mk_world h' (self w))
  end.
Proof.
  intros Hv Ht. unfold clipped_window, bind, get_self. rewrite Ht.
  unfold on_mem at 1, np_full.
  replace ((view_size <? 0) || (view_size <? 0)) with false by lia.
  unfold on_mem. cbn [mem self]. cbv zeta. unfold fresh_window.
  match goal with
  | |- context [setitem_array ?d ?s ?h] =>
      destruct (setitem_array d s h) as [[[]|e] h']
  end; reflexivity.
Qed.

(** X13: when the window misses a grid that has at least one row and one
    column, the call either raises [ValueError] at the copy or returns a
    [view_size] by [view_size] array of walls; it never returns other
    contents. *)
Lemma get_field_of_view_off_grid_outcome w view_size tx ty :
  c_contiguous (mem w) (grid (self w)) ->
  0 < width (self w) -> 0 < height (self w) -> 1 <= view_size ->
  top_left view_size w = (Ret (tx, ty), w) ->
  (tx + view_size <= 0 \/ width (self w) <= tx \/
   ty + view_size <= 0 \/ height (self w) <= ty) ->
  fst (get_field_of_view view_size w) = Raise ValueError \/
  exists fov w',
    get_field_of_view view_size w = (Ret fov, w') /\
    shape0 fov = view_size /\ shape1 fov = view_size /\
    forall i j, 0 <= i < view_size -> 0 <= j < view_size ->
      getitem (mem w') fov i j = ObjectTypes.wall.
Proof.
  intros Hc HW HH Hv Ht Hout. unfold width, height in *.
  pose proof (c_contiguous_base _ _ Hc) as Hbase.
  destruct (mem w !! base (grid (self w))) as [gbuf|] eqn:Eg;
    [|by apply lookup_ge_None in Eg; lia].
  unfold get_field_of_view, bind, get_self.
  rewrite (clipped_window_steps w view_size tx ty) by (lia || done).
  cbv zeta.
  set (h := mem w) in *. set (g := grid (self w)) in *.
  set (fov := fresh_window h view_size).
  set (buf0 := replicate (Z.to_nat (view_size * view_size))
                         (ObjectTypes.value ObjectTypes.wall)).
  match goal with
  | |- context [setitem_array ?d ?s] => set (dst := d); set (src := s)
  end.
  unfold setitem_array.
  destruct (((shape0 src =? shape0 dst) || (shape0 src =? 1)) &&
            ((shape1 src =? shape1 dst) || (shape1 src =? 1))) eqn:Echk;
    [|by left].
  right.
  assert (Hempty : shape0 dst = 0 \/ shape1 dst = 0).
  { apply andb_prop in Echk as [E0 E1].
    apply orb_prop in E0, E1. rewrite !Z.eqb_eq in E0, E1.
    destruct Hc as (_ & Hs0 & Hs1 & _).
    destruct Hout as [Hx|[Hx|[Hy|Hy]]].
    - left. apply (off_grid_extent view_size (shape0 g) tx); [done|done|lia|].
      exact E0.
    - left. apply (off_grid_extent view_size (shape0 g) tx); [done|done|lia|].
      exact E0.
    - right. apply (off_grid_extent view_size (shape1 g) ty); [done|done|lia|].
      exact E1.
    - right. apply (off_grid_extent view_size (shape1 g) ty); [done|done|lia|].
      exact E1. }
  rewrite (pairs_empty _ _ Hempty). cbn [map fold_left].
  change (base dst) with (length h).
  rewrite list_lookup_middle by done.
  rewrite insert_app_r_alt, Nat.sub_diag by lia. cbn [insert list_insert].
  unfold on_mem, setitem_index. cbn [mem self fst snd]. fold g.
  rewrite !adjust_index_inside;
    [|lia|split; [apply Z.div_pos; lia|apply Z.div_lt_upper_bound; lia]].
  rewrite lookup_app_l, Eg by lia. unfold ret.
  destruct (iter_rotate_left_shape view_size
              (Z.to_nat (agent_dir (self w) + 1)) fov eq_refl eq_refl)
    as (Hb & Hn0 & Hn1).
  eexists _, _. split; [reflexivity|]. split; [exact Hn0|].
  split; [exact Hn1|]. intros i j Hi Hj. cbn [mem].
  rewrite getitem_insert_other by (rewrite Hb; simpl; lia).
  rewrite (getitem_iter_rotate_left _ view_size) by (done || lia).
  destruct (turn_iter_range view_size
              (Z.to_nat (agent_dir (self w) + 1)) (i, j)) as [Hi' Hj'];
    [simpl; lia|].
  unfold fov. rewrite getitem_fresh_window by lia.
  unfold buf0. rewrite lookup_replicate_2 by nia. reflexivity.
Qed.

(** * The claims *)

(** C2: at each of the four directions, for every position and every
    [view_size], [get_field_of_view] takes as top-left corner of the window
    [(agentX, agentY - view_size // 2)] facing right,
    [(agentX - view_size // 2, agentY)] facing down,
    [(agentX - view_size + 1, agentY - view_size // 2)] facing left and
    [(agentX - view_size // 2, agentY - view_size + 1)] facing up, where
    [//] is floor division ([Z.div]). *)
Theorem top_left_by_direction (h : heap) (g : ndarray) (x y : Z)
    (c : option Z) (view_size : Z) :
  let facing (d : Direction.t) :=
    mk_world h (mk_MinigridState g (x, y) d c) in
  top_left view_size (facing Direction.facing_right) =
    (Ret (x, y - view_size / 2), facing Direction.facing_right) /\
  top_left view_size (facing Direction.facing_down) =
    (Ret (x - view_size / 2, y), facing Direction.facing_down) /\
  top_left view_size (facing Direction.facing_left) =
    (Ret (x - view_size + 1, y - view_size / 2),
     facing Direction.facing_left) /\
  top_left view_size (facing Direction.facing_up) =
    (Ret (x - view_size / 2, y - view_size + 1), facing Direction.facing_up).
Proof. repeat split. Qed.

(** C1: on a grid that holds the agent, for a valid direction and every
    [view_size >= 1] (odd or not), [clipped_window] returns a
    [view_size] by [view_size] array that holds at each index [(i, j)] the
    grid cell at [(topX + i, topY + j)] when that point is on the grid and
    the wall code when it is not. *)
Theorem clipped_window_cells (w : world) (view_size : Z) :
  valid_world w -> 1 <= view_size ->
  exists tx ty fov w',
    top_left view_size w = (Ret (tx, ty), w) /\
    clipped_window view_size w = (Ret fov, w') /\
    shape0 fov = view_size /\ shape1 fov = view_size /\
    forall i j, 0 <= i < view_size -> 0 <= j < view_size ->
      (in_bounds (self w) (tx + i) (ty + j) ->
       getitem (mem w') fov i j =
       getitem (mem w) (grid (self w)) (tx + i) (ty + j)) /\
      (~ in_bounds (self w) (tx + i) (ty + j) ->
       getitem (mem w') fov i j = ObjectTypes.wall).
Proof.
  intros Hw Hv.
  destruct (top_left_cases w view_size (proj2 (proj2 Hw)))
    as (tx & ty & Ht & _).
  destruct (clipped_window_run w view_size tx ty Hw Hv Ht)
    as (buf & Hrun & Hlen & Hcells).
  exists tx, ty, (fresh_window (mem w) view_size),
         (mk_world (mem w ++ [buf]) (self w)).
  repeat split; try done.
  - intros Hb. cbn [mem]. rewrite getitem_fresh_window by lia.
    rewrite Hcells by lia. unfold window_cell.
    apply in_boundsb_spec in Hb. by rewrite Hb.
  - intros Hb. cbn [mem]. rewrite getitem_fresh_window by lia.
    rewrite Hcells by lia. unfold window_cell.
    destruct (in_boundsb _ _ _) eqn:E; [|done].
    by apply in_boundsb_spec in E.
Qed.

Lemma clipped_window_cells_witness :
  valid_world (fresh_world 4 3 1 (0, 1) 2) /\ 1 <= 3 /\
  exists tx ty fov w',
    top_left 3 (fresh_world 4 3 1 (0, 1) 2) =
      (Ret (tx, ty), fresh_world 4 3 1 (0, 1) 2) /\
    clipped_window 3 (fresh_world 4 3 1 (0, 1) 2) = (Ret fov, w') /\
    shape0 fov = 3 /\ shape1 fov = 3 /\
    forall i j, 0 <= i < 3 -> 0 <= j < 3 ->
      (in_bounds (self (fresh_world 4 3 1 (0, 1) 2)) (tx + i) (ty + j) ->
       getitem (mem w') fov i j =
       getitem (mem (fresh_world 4 3 1 (0, 1) 2))
               (grid (self (fresh_world 4 3 1 (0, 1) 2))) (tx + i) (ty + j)) /\
      (~ in_bounds (self (fresh_world 4 3 1 (0, 1) 2)) (tx + i) (ty + j) ->
       getitem (mem w') fov i j = ObjectTypes.wall).
Proof.
  assert (Hw : valid_world (fresh_world 4 3 1 (0, 1) 2)).
  { unfold valid_world, c_contiguous, in_bounds, valid_dir; simpl.
    repeat split; try reflexivity; lia. }
  split; [exact Hw|]. split; [lia|].
  apply (clipped_window_cells (fresh_world 4 3 1 (0, 1) 2) 3); [exact Hw|lia].
Defined.

(** C9: on a grid that holds the agent, for a valid direction and every
    [view_size >= 1], the window [[topX, topX + view_size)] by
    [[topY, topY + view_size)] contains the agent's position.  The copy
    that [clipped_window] performs is the assignment of the slice
    [grid[gx0:gx1, gy0:gy1]] to the slice
    [fov[px0:px0 + (gx1 - gx0), py0:py0 + (gy1 - gy0)]]; it raises nothing,
    the overlap holds the agent's position, both slices have the same
    shape, positive on both axes, and after the copy the window holds the
    grid's cell of the agent. *)
Theorem window_contains_agent (w : world) (view_size : Z) :
  valid_world w -> 1 <= view_size ->
  exists tx ty,
    top_left view_size w = (Ret (tx, ty), w) /\
    (tx <= fst (agent_pos (self w)) < tx + view_size /\
     ty <= snd (agent_pos (self w)) < ty + view_size) /\
    let fov := fresh_window (mem w) view_size in
    let gx0 := Z.max tx 0 in
    let gy0 := Z.max ty 0 in
    let gx1 := Z.min (tx + view_size) (shape0 (grid (self w))) in
    let gy1 := Z.min (ty + view_size) (shape1 (grid (self w))) in
    let px0 := Z.max 0 (- tx) in
    let py0 := Z.max 0 (- ty) in
    let src := getitem_slice (grid (self w)) gx0 gx1 gy0 gy1 in
    let dst := getitem_slice fov px0 (px0 + (gx1 - gx0))
                                 py0 (py0 + (gy1 - gy0)) in
    let copy :=
      setitem_array dst src
        (mem w ++ [replicate (Z.to_nat (view_size * view_size))
                             (ObjectTypes.value ObjectTypes.wall)]) in
    (clipped_window view_size w = (Ret fov, mk_world (snd copy) (self w)) /\
     fst copy = Ret tt) /\
    (gx0 <= fst (agent_pos (self w)) < gx1 /\
     gy0 <= snd (agent_pos (self w)) < gy1) /\
    (shape0 src = gx1 - gx0 /\ 0 < shape0 src /\
     shape1 src = gy1 - gy0 /\ 0 < shape1 src) /\
    (shape0 dst = shape0 src /\ shape1 dst = shape1 src) /\
    getitem (snd copy) fov
            (fst (agent_pos (self w)) - tx) (snd (agent_pos (self w)) - ty) =
    getitem (mem w) (grid (self w))
            (fst (agent_pos (self w))) (snd (agent_pos (self w))).
Proof.
  intros Hw Hv.
  destruct (top_left_cases w view_size (proj2 (proj2 Hw)))
    as (tx & ty & Ht & _).
  destruct (top_left_around_agent w view_size tx ty (proj2 (proj2 Hw)) Hv Ht)
    as [Hx Hy].
  destruct (clipped_window_run w view_size tx ty Hw Hv Ht)
    as (buf & Hrun & _ & Hcells).
  pose proof (clipped_window_steps w view_size tx ty ltac:(lia) Ht) as Hsteps.
  destruct Hw as (Hc & Hin & Hd). pose proof Hin as [Hax Hay].
  destruct Hc as (Ho & Hs0 & Hs1 & _).
  unfold width, height in Hax, Hay.
  exists tx, ty. split; [exact Ht|]. split; [done|].
  intros fov gx0 gy0 gx1 gy1 px0 py0 src dst copy.
  assert (Hcopy : clipped_window view_size w =
                  match copy with
                  | (Ret _, h') => (Ret fov, mk_world h' (self w))
                  | (Raise e, h') => (Raise e, mk_world h' (self w))
                  end) by exact Hsteps.
  assert (Hsrc : shape0 src = gx1 - gx0 /\ shape1 src = gy1 - gy0).
  { unfold src. rewrite getitem_slice_inside; [done|..]; lia. }
  assert (Hdst : shape0 dst = gx1 - gx0 /\ shape1 dst = gy1 - gy0).
  { unfold dst.
    rewrite getitem_slice_inside by (unfold fov, fresh_window; simpl; lia).
    simpl. lia. }
  rewrite Hrun in Hcopy. clearbody copy.
  destruct copy as [[[]|e] h']; [|done].
  injection Hcopy as Hh'. cbn [fst snd]. rewrite <- Hh'.
  split; [done|]. split; [lia|].
  destruct Hsrc as [-> ->], Hdst as [-> ->].
  split; [lia|]. split; [done|].
  unfold fov. rewrite getitem_fresh_window by lia.
  rewrite Hcells by lia. unfold window_cell.
  replace (tx + (fst (agent_pos (self w)) - tx))
    with (fst (agent_pos (self w))) by lia.
  replace (ty + (snd (agent_pos (self w)) - ty))
    with (snd (agent_pos (self w))) by lia.
  apply in_boundsb_spec in Hin. by rewrite Hin.
Qed.

Lemma window_contains_agent_witness :
  valid_world (fresh_world 4 3 1 (0, 1) 2) /\ 1 <= 2 /\
  exists tx ty,
    top_left 2 (fresh_world 4 3 1 (0, 1) 2) =
      (Ret (tx, ty), fresh_world 4 3 1 (0, 1) 2) /\
    (tx <= 0 < tx + 2 /\ ty <= 1 < ty + 2) /\
    let fov := fresh_window (mem (fresh_world 4 3 1 (0, 1) 2)) 2 in
    let gx0 := Z.max tx 0 in
    let gy0 := Z.max ty 0 in
    let gx1 := Z.min (tx + 2) 4 in
    let gy1 := Z.min (ty + 2) 3 in
    let px0 := Z.max 0 (- tx) in
    let py0 := Z.max 0 (- ty) in
    let src := getitem_slice (mk_ndarray 0 0 4 3 3 1) gx0 gx1 gy0 gy1 in
    let dst := getitem_slice fov px0 (px0 + (gx1 - gx0))
                                 py0 (py0 + (gy1 - gy0)) in
    let copy :=
      setitem_array dst src
        (mem (fresh_world 4 3 1 (0, 1) 2)
         ++ [replicate (Z.to_nat (2 * 2))
                       (ObjectTypes.value ObjectTypes.wall)]) in
    (clipped_window 2 (fresh_world 4 3 1 (0, 1) 2) =
       (Ret fov, mk_world (snd copy) (self (fresh_world 4 3 1 (0, 1) 2))) /\
     fst copy = Ret tt) /\
    (gx0 <= 0 < gx1 /\ gy0 <= 1 < gy1) /\
    (shape0 src = gx1 - gx0 /\ 0 < shape0 src /\
     shape1 src = gy1 - gy0 /\ 0 < shape1 src) /\
    (shape0 dst = shape0 src /\ shape1 dst = shape1 src) /\
    getitem (snd copy) fov (0 - tx) (1 - ty) =
    getitem (mem (fresh_world 4 3 1 (0, 1) 2)) (mk_ndarray 0 0 4 3 3 1) 0 1.
Proof.
  assert (Hw : valid_world (fresh_world 4 3 1 (0, 1) 2)).
  { unfold valid_world, c_contiguous, in_bounds, valid_dir; simpl.
    repeat split; try reflexivity; lia. }
  split; [exact Hw|]. split; [lia|].
  apply (window_contains_agent (fresh_world 4 3 1 (0, 1) 2) 2); [exact Hw|lia].
Defined.

(** C4: on an allocated grid, every call of [get_field_of_view] that
    returns leaves the attributes of the state as they were, leaves the
    agent code in the grid cell [(width // 2, height - 1)] and leaves every
    other grid cell as it was at entry; and the call does return when the
    agent is on the grid, the direction is valid and [view_size >= 1]. *)
Theorem get_field_of_view_marks_grid (w : world) (view_size : Z) :
  c_contiguous (mem w) (grid (self w)) ->
  (forall fov w',
     get_field_of_view view_size w = (Ret fov, w') ->
     self w' = self w /\
     getitem (mem w') (grid (self w'))
             (width (self w) / 2) (height (self w) - 1) = ObjectTypes.agent /\
     forall i j, in_bounds (self w) i j ->
       (i, j) <> (width (self w) / 2, height (self w) - 1) ->
       getitem (mem w') (grid (self w')) i j =
       getitem (mem w) (grid (self w)) i j) /\
  (in_bounds (self w) (fst (agent_pos (self w))) (snd (agent_pos (self w))) ->
   valid_dir (agent_dir (self w)) -> 1 <= view_size ->
   exists fov w', get_field_of_view view_size w = (Ret fov, w')).
Proof.
  intros Hc. split.
  - intros fov w' Hrun.
    pose proof (c_contiguous_base _ _ Hc) as Hbase.
    destruct Hc as (Ho & Hs0 & Hs1 & Hst0 & Hst1 & Hlen).
    unfold get_field_of_view, bind, get_self in Hrun.
    destruct (clipped_window view_size w) as [[fov0|e] w0] eqn:Ec; [|done].
    apply clipped_window_mem in Ec as (Hself & _ & buf & Hmem).
    unfold on_mem, setitem_index in Hrun. cbn [fst snd] in Hrun.
    rewrite Hmem, Hself in Hrun.
    destruct (adjust_index (shape0 (grid (self w)) / 2)
                (shape0 (grid (self w)))) as [i'|] eqn:Ei; [|done].
    destruct (adjust_index (shape1 (grid (self w)) - 1)
                (shape1 (grid (self w)))) as [j'|] eqn:Ej; [|done].
    pose proof (adjust_index_Some _ _ _ Ei) as Hi'.
    pose proof (adjust_index_Some _ _ _ Ej) as Hj'.
    assert (i' = shape0 (grid (self w)) / 2) as ->.
    { rewrite adjust_index_inside in Ei; [by injection Ei|].
      split; [apply Z.div_pos; lia|apply Z.div_lt_upper_bound; lia]. }
    assert (j' = shape1 (grid (self w)) - 1) as ->.
    { rewrite adjust_index_inside in Ej; [by injection Ej|lia]. }
    destruct (mem w !! base (grid (self w))) as [gbuf|] eqn:Eg; [|done].
    rewrite lookup_app_l, Eg in Hrun by lia.
    injection Hlen as Hlen.
    unfold ret in Hrun. injection Hrun as _ <-. cbn [mem self].
    unfold width, height, in_bounds.
    set (g := grid (self w)) in *.
    assert (Hflat : forall i j, flat_index g i j = i * shape1 g + j).
    { intros i j. unfold flat_index. rewrite Ho, Hst0, Hst1. lia. }
    assert (Hg : (mem w ++ [buf]) !! base g = Some gbuf)
      by (by rewrite lookup_app_l by lia).
    split; [done|]. split.
    + rewrite (getitem_insert_write _ _ gbuf) by (rewrite ?Hflat; try done; nia).
      by rewrite Z.eqb_refl.
    + intros i j [Hi Hj] Hne. unfold width, height in Hi, Hj.
      fold g in Hi, Hj.
      rewrite (getitem_insert_write _ _ gbuf) by (rewrite ?Hflat; try done; nia).
      destruct (Z.eqb_spec (flat_index g i j)
                  (flat_index g (shape0 g / 2) (shape1 g - 1))) as [E|_].
      * rewrite !Hflat in E. apply row_major_inj in E as [-> ->]; [congruence|lia..].
      * apply getitem_app. lia.
  - intros Hin Hd Hv.
    destruct (top_left_cases w view_size Hd) as (tx & ty & Ht & _).
    destruct (get_field_of_view_run w view_size tx ty) as
      (buf & gbuf & _ & _ & _ & _ & Hrun); [done..|].
    eauto.
Qed.

Lemma get_field_of_view_marks_grid_witness :
  c_contiguous (mem (fresh_world 4 3 1 (0, 1) 2))
               (grid (self (fresh_world 4 3 1 (0, 1) 2))) /\
  ((forall fov w',
      get_field_of_view 3 (fresh_world 4 3 1 (0, 1) 2) = (Ret fov, w') ->
      self w' = self (fresh_world 4 3 1 (0, 1) 2) /\
      getitem (mem w') (grid (self w')) (4 / 2) (3 - 1) = ObjectTypes.agent /\
      forall i j, in_bounds (self (fresh_world 4 3 1 (0, 1) 2)) i j ->
        (i, j) <> (4 / 2, 3 - 1) ->
        getitem (mem w') (grid (self w')) i j =
        getitem (mem (fresh_world 4 3 1 (0, 1) 2))
                (grid (self (fresh_world 4 3 1 (0, 1) 2))) i j) /\
   (in_bounds (self (fresh_world 4 3 1 (0, 1) 2)) 0 1 ->
    valid_dir 2 -> 1 <= 3 ->
    exists fov w',
      get_field_of_view 3 (fresh_world 4 3 1 (0, 1) 2) = (Ret fov, w'))).
Proof.
  assert (Hc : c_contiguous (mem (fresh_world 4 3 1 (0, 1) 2))
                 (grid (self (fresh_world 4 3 1 (0, 1) 2)))).
  { unfold c_contiguous; simpl. repeat split; try reflexivity; lia. }
  split; [exact Hc|].
  apply (get_field_of_view_marks_grid (fresh_world 4 3 1 (0, 1) 2) 3 Hc).
Defined.

(** C3: on a grid that holds the agent, for a valid direction [d] and
    every [view_size >= 1] (odd or not), the array [get_field_of_view]
    returns is the clipped window turned [d + 1] times by the composite
    [transpose], [np.rot90], [transpose], with the contents this gives;
    and on some square array the composite and [np.rot90] alone give
    different contents. *)
Theorem get_field_of_view_turns (w : world) (view_size : Z) :
  valid_world w -> 1 <= view_size ->
  (exists fov0 w0 fov w',
     clipped_window view_size w = (Ret fov0, w0) /\
     get_field_of_view view_size w = (Ret fov, w') /\
     fov = Nat.iter (Z.to_nat (agent_dir (self w) + 1))
             (fun a => transpose (np_rot90 (transpose a))) fov0 /\
     tolist (mem w') fov =
     tolist (mem w0)
       (Nat.iter (Z.to_nat (agent_dir (self w) + 1))
          (fun a => transpose (np_rot90 (transpose a))) fov0)) /\
  (exists h a,
     shape0 a = shape1 a /\
     tolist h (transpose (np_rot90 (transpose a))) <> tolist h (np_rot90 a)).
Proof.
  intros Hw Hv. split.
  - destruct (top_left_cases w view_size (proj2 (proj2 Hw)))
      as (tx & ty & Ht & _).
    destruct (get_field_of_view_cells w view_size tx ty Hw Hv Ht)
      as (fov0 & w0 & fov & w' & Hclip & Hrun & Hfov & [H0 H1] & Hsame & _).
    exists fov0, w0, fov, w'. split; [exact Hclip|]. split; [exact Hrun|].
    split; [exact Hfov|]. fold rotate_left. rewrite <- Hfov.
    apply tolist_ext; [done..|]. intros i j _ _. apply Hsame.
    rewrite Hfov.
    by destruct (iter_rotate_left_shape view_size
                   (Z.to_nat (agent_dir (self w) + 1)) fov0 H0 H1) as [-> _].
  - exists [[1; 2; 3; 4]], (mk_ndarray 0 0 2 2 2 1).
    split; [reflexivity|]. vm_compute. discriminate.
Qed.

Lemma get_field_of_view_turns_witness :
  valid_world (fresh_world 4 3 1 (0, 1) 2) /\ 1 <= 3 /\
  (exists fov0 w0 fov w',
     clipped_window 3 (fresh_world 4 3 1 (0, 1) 2) = (Ret fov0, w0) /\
     get_field_of_view 3 (fresh_world 4 3 1 (0, 1) 2) = (Ret fov, w') /\
     fov = Nat.iter 3 (fun a => transpose (np_rot90 (transpose a))) fov0 /\
     tolist (mem w') fov =
     tolist (mem w0)
       (Nat.iter 3 (fun a => transpose (np_rot90 (transpose a))) fov0)) /\
  (exists h a,
     shape0 a = shape1 a /\
     tolist h (transpose (np_rot90 (transpose a))) <> tolist h (np_rot90 a)).
Proof.
  assert (Hw : valid_world (fresh_world 4 3 1 (0, 1) 2)).
  { unfold valid_world, c_contiguous, in_bounds, valid_dir; simpl.
    repeat split; try reflexivity; lia. }
  split; [exact Hw|]. split; [lia|].
  apply (get_field_of_view_turns (fresh_world 4 3 1 (0, 1) 2) 3); [exact Hw|lia].
Defined.

(** C10: the window a call returns, read after the call has marked the
    grid, holds at [(i, j)] what the grid held at entry under the cell that
    [d + 1] turns bring to [(i, j)] (or the wall code off the grid), also
    at the marked cell; the mark is seen by the next call.  On a 3 by 3
    grid of empty cells with the agent at [(1, 2)] facing up, the first
    window shows the empty code at [(1, 2)], the grid then holds the agent
    code there, and the second window shows the agent code while the first
    window still shows the empty code. *)
Theorem get_field_of_view_reads_entry_grid (w : world) (view_size tx ty : Z) :
  valid_world w -> 1 <= view_size ->
  top_left view_size w = (Ret (tx, ty), w) ->
  (exists fov w',
     get_field_of_view view_size w = (Ret fov, w') /\
     forall i j, 0 <= i < view_size -> 0 <= j < view_size ->
       let ij := Nat.iter (Z.to_nat (agent_dir (self w) + 1))
                   (turn view_size) (i, j) in
       getitem (mem w') fov i j =
       window_cell (mem w) (self w) tx ty (fst ij) (snd ij)) /\
  (exists fov1 w1 fov2 w2,
     get_field_of_view 3 (fresh_world 3 3 ObjectTypes.empty (1, 2) 3) =
       (Ret fov1, w1) /\
     get_field_of_view 3 w1 = (Ret fov2, w2) /\
     getitem (mem w1) fov1 1 2 = ObjectTypes.empty /\
     getitem (mem w1) (grid (self w1)) 1 2 = ObjectTypes.agent /\
     getitem (mem w2) fov2 1 2 = ObjectTypes.agent /\
     getitem (mem w2) fov1 1 2 = ObjectTypes.empty).
Proof.
  intros Hw Hv Ht. split.
  - destruct (get_field_of_view_cells w view_size tx ty Hw Hv Ht)
      as (fov0 & w0 & fov & w' & Hclip & Hrun & Hfov & [H0 H1] & Hsame & Hcells).
    exists fov, w'. split; [exact Hrun|]. intros i j Hi Hj ij.
    destruct (iter_rotate_left_shape view_size
                (Z.to_nat (agent_dir (self w) + 1)) fov0 H0 H1) as (Hb & _).
    rewrite Hsame by (by rewrite Hfov).
    rewrite Hfov, (getitem_iter_rotate_left _ view_size) by (done || lia).
    fold ij.
    destruct (turn_iter_range view_size
                (Z.to_nat (agent_dir (self w) + 1)) (i, j)) as [Hi' Hj'];
      [simpl; lia|].
    by apply Hcells.
  - eexists _, _, _, _. split; [by cbv|]. split; [by cbv|].
    repeat split.
Qed.

Lemma get_field_of_view_reads_entry_grid_witness :
  valid_world (fresh_world 4 3 1 (0, 1) 2) /\ 1 <= 3 /\
  top_left 3 (fresh_world 4 3 1 (0, 1) 2) =
    (Ret (-2, 0), fresh_world 4 3 1 (0, 1) 2) /\
  exists fov w',
    get_field_of_view 3 (fresh_world 4 3 1 (0, 1) 2) = (Ret fov, w') /\
    forall i j, 0 <= i < 3 -> 0 <= j < 3 ->
      let ij := Nat.iter 3 (turn 3) (i, j) in
      getitem (mem w') fov i j =
      window_cell (mem (fresh_world 4 3 1 (0, 1) 2))
                  (self (fresh_world 4 3 1 (0, 1) 2)) (-2) 0 (fst ij) (snd ij).
Proof.
  assert (Hw : valid_world (fresh_world 4 3 1 (0, 1) 2)).
  { unfold valid_world, c_contiguous, in_bounds, valid_dir; simpl.
    repeat split; try reflexivity; lia. }
  split; [exact Hw|]. split; [lia|]. split; [reflexivity|].
  apply (get_field_of_view_reads_entry_grid
           (fresh_world 4 3 1 (0, 1) 2) 3 (-2) 0); [exact Hw|lia|reflexivity].
Defined.

(** C6: [get_type_indices(t)] returns the list of the coordinates
    [(i, j)] with [grid[i, j] = t]: it is the row-major scan of the index
    space filtered by that test, so it holds exactly these coordinates, in
    strictly ascending order of first index and then second index, and a
    call on any grid with the same contents returns the same list. *)
Theorem get_type_indices_scan (w : world) (t : Z) :
  let result :=
    List.filter
      (fun ij => getitem (mem w) (grid (self w)) (fst ij) (snd ij) =? t)
      (pairs (width (self w)) (height (self w))) in
  get_type_indices t w = (Ret result, w) /\
  (forall i j, In (i, j) result <->
     in_bounds (self w) i j /\ getitem (mem w) (grid (self w)) i j = t) /\
  StronglySorted lex_lt result /\
  (forall w2,
     tolist (mem w2) (grid (self w2)) = tolist (mem w) (grid (self w)) ->
     fst (get_type_indices t w2) = Ret result).
Proof.
  intros result.
  assert (Hrun : forall u, get_type_indices t u =
            (Ret (List.filter
                    (fun ij => getitem (mem u) (grid (self u)) (fst ij) (snd ij)
                               =? t)
                    (pairs (width (self u)) (height (self u)))), u)).
  { intros u. unfold get_type_indices, bind, get_self, read_mem, ret.
    rewrite np_where_np_equal. cbn [fst snd]. by rewrite combine_fst_snd. }
  split; [apply Hrun|]. split; [|split].
  - intros i j. unfold result. rewrite filter_In, <- list_elem_of_In.
    rewrite elem_of_pairs. unfold in_bounds. simpl. rewrite Z.eqb_eq. tauto.
  - apply StronglySorted_filter, pairs_sorted.
  - intros w2 Heq.
    transitivity (fst (get_type_indices t w)); [|by rewrite Hrun].
    unfold get_type_indices, bind, get_self, read_mem, ret, np_equal.
    cbn [fst snd]. by rewrite Heq.
Qed.

(** C7: for each of the four directions [d] and every position whose
    coordinates are strictly inside the [int64] range (as every position on
    a grid is), [front_pos] returns [agent_pos + v(d)] with [v] the table
    of the specification, whether or not that cell is on the grid: from
    [(0, 0)] facing up it returns [(0, -1)]. *)
Theorem front_pos_adds_vector (w : world) (d : Direction.t) :
  agent_dir (self w) = d ->
  - 2 ^ 63 < fst (agent_pos (self w)) < 2 ^ 63 - 1 ->
  - 2 ^ 63 < snd (agent_pos (self w)) < 2 ^ 63 - 1 ->
  front_pos w =
    (Ret (fst (agent_pos (self w)) + fst (direction_vector d),
          snd (agent_pos (self w)) + snd (direction_vector d)), w) /\
  (valid_world (fresh_world 3 3 ObjectTypes.empty (0, 0) Direction.facing_up) /\
   front_pos (fresh_world 3 3 ObjectTypes.empty (0, 0) Direction.facing_up) =
     (Ret (0, -1),
      fresh_world 3 3 ObjectTypes.empty (0, 0) Direction.facing_up) /\
   ~ in_bounds
       (self (fresh_world 3 3 ObjectTypes.empty (0, 0) Direction.facing_up))
       0 (-1)).
Proof.
  intros Hd Hx Hy. split.
  - unfold front_pos, bind, get_self. rewrite Hd, DIR_TO_VEC_direction.
    unfold np_add, ret. cbn [fst snd].
    by rewrite !wrap64_inside by (destruct d; simpl; lia).
  - split; [|split; [reflexivity|]].
    + unfold valid_world, c_contiguous, in_bounds, valid_dir; simpl.
      repeat split; try reflexivity; lia.
    + unfold in_bounds; simpl. lia.
Qed.

Lemma front_pos_adds_vector_witness :
  agent_dir (self (fresh_world 4 3 1 (3, 1) 0)) = Direction.facing_right /\
  front_pos (fresh_world 4 3 1 (3, 1) 0) =
    (Ret (4, 1), fresh_world 4 3 1 (3, 1) 0).
Proof.
  split; [reflexivity|].
  apply (front_pos_adds_vector (fresh_world 4 3 1 (3, 1) 0)
           Direction.facing_right); [reflexivity|simpl; lia|simpl; lia].
Defined.

(** C5, at direction [-1]: [front_pos] raises nothing and returns the cell
    it returns for direction 3, while [get_field_of_view] raises. *)
Theorem front_pos_negative_direction :
  front_pos (fresh_world 3 3 ObjectTypes.empty (1, 1) (-1)) =
    (Ret (1, 0), fresh_world 3 3 ObjectTypes.empty (1, 1) (-1)) /\
  fst (front_pos (fresh_world 3 3 ObjectTypes.empty (1, 1) 3)) = Ret (1, 0) /\
  fst (get_field_of_view 3 (fresh_world 3 3 ObjectTypes.empty (1, 1) (-1))) =
    Raise AssertionError.
Proof. repeat split. Qed.

(** C8, for a window one cell beyond the right edge: on a 5 by 5 grid with
    the agent at [(6, 2)] facing right and [view_size = 3] the window is
    [[6, 9)] by [[1, 4)], which misses the grid, and the call raises
    [ValueError]; with the agent at [(5, 2)] the window touches the edge
    and the call returns walls only. *)
Theorem get_field_of_view_off_grid :
  fst (top_left 3 (fresh_world 5 5 ObjectTypes.empty (6, 2) 0)) = Ret (6, 1) /\
  fst (get_field_of_view 3 (fresh_world 5 5 ObjectTypes.empty (6, 2) 0)) =
    Raise ValueError /\
  run_fov (fresh_world 5 5 ObjectTypes.empty (5, 2) 0) 3 =
    Ret [[2; 2; 2]; [2; 2; 2]; [2; 2; 2]].
Proof. repeat split. Qed.

(** * Further properties of the methods *)

(** ** The loop body as a rotation *)

(** The view one pass of the loop body gives. *)
Lemma rotate_left_view a :
  rotate_left a =
  mk_ndarray (base a)
             (if 0 <? shape0 a then offset a + (shape0 a - 1) * stride0 a
              else offset a)
             (shape1 a) (shape0 a) (stride1 a) (- stride0 a).
Proof. reflexivity. Qed.

(** X1: four passes of the loop body [fov = np.rot90(fov.T, k=1).T] give
    back the view they started from (same buffer, offset, shape and
    strides), for an array of any shape. *)
Theorem rotate_left_four_times (a : ndarray) :
  Nat.iter 4 rotate_left a = a.
Proof.
  destruct a as [b o n0 n1 s0 s1].
  change (Nat.iter 4 rotate_left (mk_ndarray b o n0 n1 s0 s1))
    with (rotate_left (rotate_left (rotate_left (rotate_left
            (mk_ndarray b o n0 n1 s0 s1))))).
  rewrite !rotate_left_view. cbn [base offset shape0 shape1 stride0 stride1].
  destruct (Z.ltb_spec 0 n0), (Z.ltb_spec 0 n1); f_equal; lia.
Qed.

(** X2: the loop body undoes [np.rot90] and is undone by it, so it is the
    clockwise quarter turn, the same view as three applications of
    [np.rot90]. *)
Theorem rotate_left_inverts_np_rot90 (a : ndarray) :
  rotate_left (np_rot90 a) = a /\
  np_rot90 (rotate_left a) = a /\
  rotate_left a = np_rot90 (np_rot90 (np_rot90 a)).
Proof.
  destruct a as [b o n0 n1 s0 s1].
  unfold rotate_left, np_rot90, transpose, flip1; simpl.
  destruct (Z.ltb_spec 0 n0), (Z.ltb_spec 0 n1);
    repeat split; f_equal; lia.
Qed.

(** ** What a call allocates, and when it cannot return *)

Lemma top_left_Ret view_size w p w' :
  top_left view_size w = (Ret p, w') -> valid_dir (agent_dir (self w)).
Proof.
  unfold top_left, bind, get_self, ret, raise, valid_dir.
  repeat match goal with
         | |- context [?x =? ?y] => destruct (Z.eqb_spec x y); [lia|]
         end.
  discriminate.
Qed.

Lemma clipped_window_Ret view_size w fov w' :
  clipped_window view_size w = (Ret fov, w') ->
  valid_dir (agent_dir (self w)) /\ 0 <= view_size.
Proof.
  unfold clipped_window, bind, get_self.
  destruct (top_left view_size w) as [[[tx ty]|e] w1] eqn:Et; [|done].
  pose proof (top_left_Ret _ _ _ _ Et) as Hd.
  unfold on_mem at 1, np_full.
  destruct (Z.ltb_spec view_size 0); [done|]. intros _. split; [done|lia].
Qed.

(** X3: a call of [get_field_of_view] that returns has allocated exactly
    one buffer, the one the returned [view_size] by [view_size] array
    views; it leaves the attributes of the state and every buffer that
    existed, other than the grid's, as they were. *)
Theorem get_field_of_view_allocates (w : world) (view_size : Z)
    (fov : ndarray) (w' : world) :
  get_field_of_view view_size w = (Ret fov, w') ->
  shape0 fov = view_size /\ shape1 fov = view_size /\
  base fov = length (mem w) /\
  length (mem w') = S (length (mem w)) /\
  self w' = self w /\
  forall b, b <> base (grid (self w)) -> (b < length (mem w))%nat ->
    mem w' !! b = mem w !! b.
Proof.
  unfold get_field_of_view, bind, get_self.
  destruct (clipped_window view_size w) as [[fov0|e] w0] eqn:Ec; [|done].
  apply clipped_window_mem in Ec as (Hself & -> & buf & Hmem).
  unfold on_mem, setitem_index. rewrite Hmem, Hself. cbn [fst snd].
  destruct (adjust_index _ _) as [i'|]; [|done].
  destruct (adjust_index _ _) as [j'|]; [|done].
  destruct (iter_rotate_left_shape view_size
              (Z.to_nat (agent_dir (self w) + 1))
              (mk_ndarray (length (mem w)) 0 view_size view_size view_size 1)
              eq_refl eq_refl) as (Hb & Hn0 & Hn1).
  destruct ((mem w ++ [buf]) !! base (grid (self w))) as [gbuf|];
    unfold ret; intros [= <- <-]; cbn [mem self];
    rewrite ?length_insert, length_app; simpl;
    (repeat split; [done|done|done|lia|]); intros b Hb1 Hb2;
    rewrite ?list_lookup_insert_ne by done; by rewrite lookup_app_l.
Qed.

Lemma get_field_of_view_allocates_witness :
  get_field_of_view 3 (fresh_world 4 3 1 (0, 1) 2) =
    (Ret (mk_ndarray 1 2 3 3 (-1) 3),
     mk_world [[1; 1; 1; 1; 1; 1; 1; 1; 12; 1; 1; 1];
               [2; 2; 2; 2; 2; 2; 1; 1; 1]]
              (self (fresh_world 4 3 1 (0, 1) 2))) /\
  length (mem (mk_world [[1; 1; 1; 1; 1; 1; 1; 1; 12; 1; 1; 1];
                         [2; 2; 2; 2; 2; 2; 1; 1; 1]]
                        (self (fresh_world 4 3 1 (0, 1) 2)))) = 2%nat.
Proof.
  assert (E : get_field_of_view 3 (fresh_world 4 3 1 (0, 1) 2) =
    (Ret (mk_ndarray 1 2 3 3 (-1) 3),
     mk_world [[1; 1; 1; 1; 1; 1; 1; 1; 12; 1; 1; 1];
               [2; 2; 2; 2; 2; 2; 1; 1; 1]]
              (self (fresh_world 4 3 1 (0, 1) 2)))) by reflexivity.
  split; [exact E|].
  apply (get_field_of_view_allocates _ _ _ _ E).
Defined.

(** X4: a call that returns was made with one of the four directions, a
    [view_size] that is not negative and a grid with at least one row and
    one column; with any other direction, a negative size or an empty grid
    the call raises. *)
Theorem get_field_of_view_returns_only_if (w : world) (view_size : Z)
    (fov : ndarray) (w' : world) :
  get_field_of_view view_size w = (Ret fov, w') ->
  valid_dir (agent_dir (self w)) /\ 0 <= view_size /\
  0 < width (self w) /\ 0 < height (self w).
Proof.
  unfold get_field_of_view, bind, get_self.
  destruct (clipped_window view_size w) as [[fov0|e] w0] eqn:Ec; [|done].
  pose proof (clipped_window_Ret _ _ _ _ Ec) as [Hd Hv].
  apply clipped_window_mem in Ec as (Hself & _ & buf & Hmem).
  unfold on_mem, setitem_index. rewrite Hself. cbn [fst snd].
  destruct (adjust_index (shape0 (grid (self w)) / 2)
              (shape0 (grid (self w)))) as [i'|] eqn:Ei; [|done].
  destruct (adjust_index (shape1 (grid (self w)) - 1)
              (shape1 (grid (self w)))) as [j'|] eqn:Ej; [|done].
  apply adjust_index_Some in Ei, Ej. intros _.
  unfold width, height. split; [exact Hd|lia].
Qed.

Lemma get_field_of_view_returns_only_if_witness :
  get_field_of_view 3 (fresh_world 4 3 1 (0, 1) 2) =
    (Ret (mk_ndarray 1 2 3 3 (-1) 3),
     mk_world [[1; 1; 1; 1; 1; 1; 1; 1; 12; 1; 1; 1];
               [2; 2; 2; 2; 2; 2; 1; 1; 1]]
              (self (fresh_world 4 3 1 (0, 1) 2))) /\
  valid_dir 2 /\ 0 <= 3 /\ 0 < 4 /\ 0 < 3.
Proof.
  assert (E : get_field_of_view 3 (fresh_world 4 3 1 (0, 1) 2) =
    (Ret (mk_ndarray 1 2 3 3 (-1) 3),
     mk_world [[1; 1; 1; 1; 1; 1; 1; 1; 12; 1; 1; 1];
               [2; 2; 2; 2; 2; 2; 1; 1; 1]]
              (self (fresh_world 4 3 1 (0, 1) 2)))) by reflexivity.
  split; [exact E|].
  apply (get_field_of_view_returns_only_if _ _ _ _ E).
Defined.

(** X5: with one of the four directions and a negative [view_size] the
    call raises [ValueError] at [np.full] and leaves the store as it was:
    nothing is allocated and the grid is not marked. *)
Theorem get_field_of_view_negative_size (w : world) (view_size : Z) :
  valid_dir (agent_dir (self w)) -> view_size < 0 ->
  get_field_of_view view_size w = (Raise ValueError, w).
Proof.
  intros Hd Hv.
  destruct (top_left_cases w view_size Hd) as (tx & ty & Ht & _).
  unfold get_field_of_view, clipped_window, bind, get_self. rewrite Ht.
  unfold on_mem, np_full.
  replace ((view_size <? 0) || (view_size <? 0)) with true by lia.
  by destruct w.
Qed.

Lemma get_field_of_view_negative_size_witness :
  valid_dir (agent_dir (self (fresh_world 4 3 1 (0, 1) 2))) /\ -1 < 0 /\
  get_field_of_view (-1) (fresh_world 4 3 1 (0, 1) 2) =
    (Raise ValueError, fresh_world 4 3 1 (0, 1) 2).
Proof.
  assert (Hd : valid_dir (agent_dir (self (fresh_world 4 3 1 (0, 1) 2))))
    by (unfold valid_dir; simpl; lia).
  split; [exact Hd|]. split; [lia|].
  apply (get_field_of_view_negative_size (fresh_world 4 3 1 (0, 1) 2) (-1));
    [exact Hd|lia].
Defined.

(** ** When the copy of the overlapping slice fails *)

(** Settles one comparison, maximum or minimum of the goal that the
    hypotheses decide. *)
Ltac decide_order :=
  match goal with
  | |- context [Z.max ?a ?b] =>
      first [rewrite (Z.max_l a b) by lia | rewrite (Z.max_r a b) by lia]
  | |- context [Z.min ?a ?b] =>
      first [rewrite (Z.min_l a b) by lia | rewrite (Z.min_r a b) by lia]
  | |- context [?x <? ?y] =>
      first [rewrite (proj2 (Z.ltb_lt x y)) by lia
            | rewrite (proj2 (Z.ltb_ge x y)) by lia]
  | |- context [?x <=? ?y] =>
      first [rewrite (proj2 (Z.leb_le x y)) by lia
            | rewrite (proj2 (Z.leb_gt x y)) by lia]
  | |- context [?x =? ?y] =>
      first [rewrite (proj2 (Z.eqb_eq x y)) by lia
            | rewrite (proj2 (Z.eqb_neq x y)) by lia]
  end.

(** On one axis, the broadcasting test of the assignment passes exactly
    when [copy_fails] is false. *)
Lemma broadcast_axis view_size len t :
  0 <= len -> 0 <= view_size ->
  ((Z.max (adjust_bound (Z.min (t + view_size) len) len
           - adjust_bound (Z.max t 0) len) 0
    =? Z.max (adjust_bound (Z.max 0 (- t)
                            + (Z.min (t + view_size) len - Z.max t 0))
                           view_size
              - adjust_bound (Z.max 0 (- t)) view_size) 0)
   || (Z.max (adjust_bound (Z.min (t + view_size) len) len
              - adjust_bound (Z.max t 0) len) 0 =? 1)) =
  negb (copy_fails view_size len t).
Proof.
  intros Hlen Hv. unfold copy_fails, adjust_bound.
  destruct (Z.lt_ge_cases t 0) as [Ht|Ht].
  - destruct (Z.lt_ge_cases (t + view_size) 0) as [Hs|Hs].
    + destruct (Z.lt_ge_cases (len + t + view_size) 2) as [Hr|Hr];
        [destruct (Z.lt_ge_cases (len + t + view_size) 1)|];
        repeat decide_order; reflexivity.
    + destruct (Z.lt_ge_cases (t + view_size) len);
        repeat decide_order; reflexivity.
  - destruct (Z.lt_ge_cases len t) as [Hl|Hl].
    + destruct (Z.lt_ge_cases t (len + view_size));
        repeat decide_order; reflexivity.
    + destruct (Z.lt_ge_cases (t + view_size) len);
        repeat decide_order; reflexivity.
Qed.

(** X6: on a grid with at least one row and one column and for
    [view_size >= 0], the call raises [ValueError] exactly when the copy
    fails on one of the two axes ([copy_fails]), leaving the wall-filled
    window allocated and the grid unmarked; in every other case it
    returns. *)
Theorem get_field_of_view_copy_error (w : world) (view_size tx ty : Z) :
  0 < width (self w) -> 0 < height (self w) -> 0 <= view_size ->
  top_left view_size w = (Ret (tx, ty), w) ->
  (copy_fails view_size (width (self w)) tx
   || copy_fails view_size (height (self w)) ty = true ->
   get_field_of_view view_size w =
     (Raise ValueError,
      mk_world (mem w ++ [replicate (Z.to_nat (view_size * view_size))
                                    (ObjectTypes.value ObjectTypes.wall)])
               (self w))) /\
  (copy_fails view_size (width (self w)) tx
   || copy_fails view_size (height (self w)) ty = false ->
   exists fov w', get_field_of_view view_size w = (Ret fov, w')).
Proof.
  intros HW HH Hv Ht. unfold width, height in *.
  assert (Hrun : get_field_of_view view_size w =
    if copy_fails view_size (shape0 (grid (self w))) tx
       || copy_fails view_size (shape1 (grid (self w))) ty
    then (Raise ValueError,
          mk_world (mem w ++ [replicate (Z.to_nat (view_size * view_size))
                                        (ObjectTypes.value ObjectTypes.wall)])
                   (self w))
    else (Ret (Nat.iter (Z.to_nat (agent_dir (self w) + 1)) rotate_left
                 (fresh_window (mem w) view_size)),
          snd (get_field_of_view view_size w))).
  { unfold get_field_of_view, bind, get_self.
    rewrite (clipped_window_steps w view_size tx ty) by done.
    cbv zeta. unfold setitem_array.
    match goal with
    | |- context [if ?c then _ else _] =>
        replace c with
          (negb (copy_fails view_size (shape0 (grid (self w))) tx
                 || copy_fails view_size (shape1 (grid (self w))) ty))
    end.
    2:{ rewrite negb_orb. unfold getitem_slice, fresh_window.
        cbn [shape0 shape1]. f_equal; symmetry; apply broadcast_axis; lia. }
    destruct (copy_fails _ _ _ || copy_fails _ _ _); cbn [negb]; [done|].
    destruct (_ !! base (getitem_slice (fresh_window _ _) _ _ _ _));
      unfold on_mem, setitem_index; cbn [mem self fst snd];
      (rewrite !adjust_index_inside;
         [|lia|split; [apply Z.div_pos; lia|apply Z.div_lt_upper_bound; lia]]);
      by destruct (_ !! base (grid (self w))). }
  rewrite Hrun. split; intros ->; [done|eauto].
Qed.

Lemma get_field_of_view_copy_error_witness :
  0 < width (self (fresh_world 5 5 1 (6, 2) 0)) /\
  0 < height (self (fresh_world 5 5 1 (6, 2) 0)) /\ 0 <= 3 /\
  top_left 3 (fresh_world 5 5 1 (6, 2) 0) =
    (Ret (6, 1), fresh_world 5 5 1 (6, 2) 0) /\
  copy_fails 3 5 6 || copy_fails 3 5 1 = true /\
  get_field_of_view 3 (fresh_world 5 5 1 (6, 2) 0) =
    (Raise ValueError,
     mk_world (mem (fresh_world 5 5 1 (6, 2) 0)
               ++ [replicate (Z.to_nat (3 * 3))
                             (ObjectTypes.value ObjectTypes.wall)])
              (self (fresh_world 5 5 1 (6, 2) 0))).
Proof.
  split; [reflexivity|]. split; [reflexivity|]. split; [lia|].
  split; [reflexivity|]. split; [reflexivity|].
  apply (get_field_of_view_copy_error (fresh_world 5 5 1 (6, 2) 0) 3 6 1);
    [reflexivity|reflexivity|lia|reflexivity|reflexivity].
Defined.

(** ** How the returned window is oriented *)

Lemma get_field_of_view_turned_cells w view_size tx ty :
  valid_world w -> 1 <= view_size ->
  top_left view_size w = (Ret (tx, ty), w) ->
  exists fov w',
    get_field_of_view view_size w = (Ret fov, w') /\
    forall i j, 0 <= i < view_size -> 0 <= j < view_size ->
      getitem (mem w') fov i j =
      window_cell (mem w) (self w) tx ty
        (fst (Nat.iter (Z.to_nat (agent_dir (self w) + 1))
                (turn view_size) (i, j)))
        (snd (Nat.iter (Z.to_nat (agent_dir (self w) + 1))
                (turn view_size) (i, j))).
Proof.
  intros Hw Hv Ht.
  destruct (get_field_of_view_cells w view_size tx ty Hw Hv Ht)
    as (fov0 & w0 & fov & w' & Hclip & Hrun & Hfov & [H0 H1] & Hsame & Hcells).
  exists fov, w'. split; [exact Hrun|]. intros i j Hi Hj.
  destruct (iter_rotate_left_shape view_size
              (Z.to_nat (agent_dir (self w) + 1)) fov0 H0 H1) as (Hb & _).
  rewrite Hsame by (by rewrite Hfov).
  rewrite Hfov, (getitem_iter_rotate_left _ view_size) by (done || lia).
  destruct (turn_iter_range view_size
              (Z.to_nat (agent_dir (self w) + 1)) (i, j)) as [Hi' Hj'];
    [simpl; lia|].
  by apply Hcells.
Qed.

(** The turns of each direction, composed. *)
Lemma turn_by_direction n i j :
  Nat.iter (Z.to_nat (0 + 1)) (turn n) (i, j) = (n - 1 - j, i) /\
  Nat.iter (Z.to_nat (1 + 1)) (turn n) (i, j) = (n - 1 - i, n - 1 - j) /\
  Nat.iter (Z.to_nat (2 + 1)) (turn n) (i, j) = (j, n - 1 - i) /\
  Nat.iter (Z.to_nat (3 + 1)) (turn n) (i, j) = (i, j).
Proof. unfold turn. simpl. repeat split; f_equal; lia. Qed.

Lemma valid_dir_cases d :
  valid_dir d -> d = 0 \/ d = 1 \/ d = 2 \/ d = 3.
Proof. unfold valid_dir. lia. Qed.

(** X7: with [n = view_size] and [W] the window before rotation (cell
    [W[a, b]] is the grid cell at [(topX + a, topY + b)], or a wall off the
    grid), the returned array [R] is [R[i, j] = W[n-1-j, i]] facing right,
    [R[i, j] = W[n-1-i, n-1-j]] facing down, [R[i, j] = W[j, n-1-i]] facing
    left and [R[i, j] = W[i, j]] facing up. *)
Theorem get_field_of_view_orientation (w : world) (view_size tx ty : Z) :
  valid_world w -> 1 <= view_size ->
  top_left view_size w = (Ret (tx, ty), w) ->
  exists fov w',
    get_field_of_view view_size w = (Ret fov, w') /\
    forall i j, 0 <= i < view_size -> 0 <= j < view_size ->
      getitem (mem w') fov i j =
      if agent_dir (self w) =? 0 then
        window_cell (mem w) (self w) tx ty (view_size - 1 - j) i
      else if agent_dir (self w) =? 1 then
        window_cell (mem w) (self w) tx ty
          (view_size - 1 - i) (view_size - 1 - j)
      else if agent_dir (self w) =? 2 then
        window_cell (mem w) (self w) tx ty j (view_size - 1 - i)
      else
        window_cell (mem w) (self w) tx ty i j.
Proof.
  intros Hw Hv Ht.
  destruct (get_field_of_view_turned_cells w view_size tx ty Hw Hv Ht)
    as (fov & w' & Hrun & Hcells).
  exists fov, w'. split; [exact Hrun|]. intros i j Hi Hj.
  rewrite Hcells by done.
  destruct (turn_by_direction view_size i j) as (T0 & T1 & T2 & T3).
  destruct (valid_dir_cases _ (proj2 (proj2 Hw))) as [E|[E|[E|E]]];
    rewrite E, ?T0, ?T1, ?T2, ?T3; reflexivity.
Qed.

Lemma get_field_of_view_orientation_witness :
  valid_world (fresh_world 4 3 1 (0, 1) 2) /\ 1 <= 3 /\
  top_left 3 (fresh_world 4 3 1 (0, 1) 2) =
    (Ret (-2, 0), fresh_world 4 3 1 (0, 1) 2) /\
  exists fov w',
    get_field_of_view 3 (fresh_world 4 3 1 (0, 1) 2) = (Ret fov, w') /\
    forall i j, 0 <= i < 3 -> 0 <= j < 3 ->
      getitem (mem w') fov i j =
      window_cell (mem (fresh_world 4 3 1 (0, 1) 2))
                  (self (fresh_world 4 3 1 (0, 1) 2)) (-2) 0 j (3 - 1 - i).
Proof.
  assert (Hw : valid_world (fresh_world 4 3 1 (0, 1) 2)).
  { unfold valid_world, c_contiguous, in_bounds, valid_dir; simpl.
    repeat split; try reflexivity; lia. }
  split; [exact Hw|]. split; [lia|]. split; [reflexivity|].
  apply (get_field_of_view_orientation
           (fresh_world 4 3 1 (0, 1) 2) 3 (-2) 0); [exact Hw|lia|reflexivity].
Defined.

Lemma window_cell_coords h s tx ty a b x y :
  tx + a = x -> ty + b = y ->
  window_cell h s tx ty a b =
  if in_boundsb s x y then getitem h (grid s) x y
  else ObjectTypes.value ObjectTypes.wall.
Proof. by intros <- <-. Qed.

Lemma half_bounds n : 1 <= n -> 0 <= n / 2 < n.
Proof. intros Hn. split; [apply Z.div_pos; lia|apply Z.div_lt; lia]. Qed.

Lemma odd_half n : Z.odd n = true -> n - 1 - n / 2 = n / 2.
Proof.
  intros Ho. pose proof (Z.div_mod n 2) as Hdm.
  pose proof (Zmod_odd n) as Hm. rewrite Ho in Hm. lia.
Qed.

(** X8: the cell the agent stands on is in the last column of the returned
    array, [R[c, view_size - 1]], in row [c = view_size // 2] facing right
    or up and [c = view_size - 1 - view_size // 2] facing down or left; for
    an odd [view_size] that is [R[view_size // 2, view_size - 1]] in all
    four directions. *)
Theorem get_field_of_view_agent_cell (w : world) (view_size : Z) :
  valid_world w -> 1 <= view_size ->
  exists fov w',
    get_field_of_view view_size w = (Ret fov, w') /\
    getitem (mem w') fov
      (if (agent_dir (self w) =? 1) || (agent_dir (self w) =? 2)
       then view_size - 1 - view_size / 2 else view_size / 2)
      (view_size - 1) =
    getitem (mem w) (grid (self w))
            (fst (agent_pos (self w))) (snd (agent_pos (self w))) /\
    (Z.odd view_size = true ->
     getitem (mem w') fov (view_size / 2) (view_size - 1) =
     getitem (mem w) (grid (self w))
             (fst (agent_pos (self w))) (snd (agent_pos (self w)))).
Proof.
  intros Hw Hv.
  destruct (top_left_cases w view_size (proj2 (proj2 Hw)))
    as (tx & ty & Ht & Hc).
  destruct (get_field_of_view_turned_cells w view_size tx ty Hw Hv Ht)
    as (fov & w' & Hrun & Hcells).
  pose proof (half_bounds view_size Hv) as Hh.
  destruct Hw as (_ & Hin & _). pose proof Hin as Hinb.
  apply in_boundsb_spec in Hinb.
  exists fov, w'. split; [exact Hrun|].
  assert (Hcol : getitem (mem w') fov
      (if (agent_dir (self w) =? 1) || (agent_dir (self w) =? 2)
       then view_size - 1 - view_size / 2 else view_size / 2)
      (view_size - 1) =
    getitem (mem w) (grid (self w))
            (fst (agent_pos (self w))) (snd (agent_pos (self w)))).
  { destruct Hc as [(E & -> & ->)|[(E & -> & ->)|[(E & -> & ->)|(E & -> & ->)]]];
      rewrite E; cbn [Z.eqb orb Pos.eqb];
      rewrite Hcells by lia; rewrite E;
      destruct (turn_by_direction view_size
                  (view_size - 1 - view_size / 2) (view_size - 1))
        as (T0 & T1 & T2 & T3);
      destruct (turn_by_direction view_size (view_size / 2) (view_size - 1))
        as (U0 & U1 & U2 & U3);
      rewrite ?T1, ?T2, ?U0, ?U3; cbn [fst snd];
      rewrite (window_cell_coords _ _ _ _ _ _
                 (fst (agent_pos (self w))) (snd (agent_pos (self w))))
        by lia;
      by rewrite Hinb. }
  split; [exact Hcol|]. intros Ho. rewrite <- Hcol.
  rewrite (odd_half view_size Ho). by destruct (_ || _).
Qed.

Lemma get_field_of_view_agent_cell_witness :
  valid_world (fresh_world 4 3 1 (0, 1) 2) /\ 1 <= 3 /\
  exists fov w',
    get_field_of_view 3 (fresh_world 4 3 1 (0, 1) 2) = (Ret fov, w') /\
    getitem (mem w') fov (3 - 1 - 3 / 2) (3 - 1) =
    getitem (mem (fresh_world 4 3 1 (0, 1) 2))
            (grid (self (fresh_world 4 3 1 (0, 1) 2))) 0 1 /\
    (Z.odd 3 = true ->
     getitem (mem w') fov (3 / 2) (3 - 1) =
     getitem (mem (fresh_world 4 3 1 (0, 1) 2))
             (grid (self (fresh_world 4 3 1 (0, 1) 2))) 0 1).
Proof.
  assert (Hw : valid_world (fresh_world 4 3 1 (0, 1) 2)).
  { unfold valid_world, c_contiguous, in_bounds, valid_dir; simpl.
    repeat split; try reflexivity; lia. }
  split; [exact Hw|]. split; [lia|].
  apply (get_field_of_view_agent_cell (fresh_world 4 3 1 (0, 1) 2) 3);
    [exact Hw|lia].
Defined.

(** ** The cell in front, in both methods *)

Lemma front_pos_cases w :
  valid_dir (agent_dir (self w)) ->
  - 2 ^ 63 < fst (agent_pos (self w)) < 2 ^ 63 - 1 ->
  - 2 ^ 63 < snd (agent_pos (self w)) < 2 ^ 63 - 1 ->
  exists p,
    front_pos w = (Ret p, w) /\
    ((agent_dir (self w) = 0 /\
      p = (fst (agent_pos (self w)) + 1, snd (agent_pos (self w)))) \/
     (agent_dir (self w) = 1 /\
      p = (fst (agent_pos (self w)), snd (agent_pos (self w)) + 1)) \/
     (agent_dir (self w) = 2 /\
      p = (fst (agent_pos (self w)) - 1, snd (agent_pos (self w)))) \/
     (agent_dir (self w) = 3 /\
      p = (fst (agent_pos (self w)), snd (agent_pos (self w)) - 1))).
Proof.
  intros Hd Hx Hy. unfold front_pos, bind, get_self.
  destruct (valid_dir_cases _ Hd) as [E|[E|[E|E]]]; rewrite E.
  - change (list_getitem DIR_TO_VEC 0 w) with (Ret (1, 0), w).
    eexists. split; [reflexivity|]. left. split; [done|].
    unfold np_add; cbn [fst snd direction_vector].
    rewrite !wrap64_inside by lia. f_equal; lia.
  - change (list_getitem DIR_TO_VEC 1 w) with (Ret (0, 1), w).
    eexists. split; [reflexivity|]. right; left. split; [done|].
    unfold np_add; cbn [fst snd direction_vector].
    rewrite !wrap64_inside by lia. f_equal; lia.
  - change (list_getitem DIR_TO_VEC 2 w) with (Ret (-1, 0), w).
    eexists. split; [reflexivity|]. right; right; left. split; [done|].
    unfold np_add; cbn [fst snd direction_vector].
    rewrite !wrap64_inside by lia. f_equal; lia.
  - change (list_getitem DIR_TO_VEC 3 w) with (Ret (0, -1), w).
    eexists. split; [reflexivity|]. right; right; right. split; [done|].
    unfold np_add; cbn [fst snd direction_vector].
    rewrite !wrap64_inside by lia. f_equal; lia.
Qed.

(** X9: for [view_size >= 2] on a grid whose sides fit [int64], the cell
    next to the agent's in the returned array, [R[c, view_size - 2]] with
    [c] the agent's row of the array, shows the cell [front_pos] returns:
    the grid cell there when it is on the grid, a wall when it is not.
    For an odd [view_size] it is [R[view_size // 2, view_size - 2]]. *)
Theorem get_field_of_view_front_cell (w : world) (view_size : Z) :
  valid_world w -> 2 <= view_size ->
  width (self w) < 2 ^ 63 -> height (self w) < 2 ^ 63 ->
  exists p fov w',
    front_pos w = (Ret p, w) /\
    get_field_of_view view_size w = (Ret fov, w') /\
    getitem (mem w') fov
      (if (agent_dir (self w) =? 1) || (agent_dir (self w) =? 2)
       then view_size - 1 - view_size / 2 else view_size / 2)
      (view_size - 2) =
    (if in_boundsb (self w) (fst p) (snd p)
     then getitem (mem w) (grid (self w)) (fst p) (snd p)
     else ObjectTypes.value ObjectTypes.wall) /\
    (Z.odd view_size = true ->
     getitem (mem w') fov (view_size / 2) (view_size - 2) =
     if in_boundsb (self w) (fst p) (snd p)
     then getitem (mem w) (grid (self w)) (fst p) (snd p)
     else ObjectTypes.value ObjectTypes.wall).
Proof.
  intros Hw Hv HW HH.
  assert (Hv1 : 1 <= view_size) by lia.
  destruct (top_left_cases w view_size (proj2 (proj2 Hw)))
    as (tx & ty & Ht & Hc).
  destruct (get_field_of_view_turned_cells w view_size tx ty Hw Hv1 Ht)
    as (fov & w' & Hrun & Hcells).
  pose proof (half_bounds view_size Hv1) as Hh.
  destruct Hw as (_ & [Hax Hay] & Hd).
  destruct (front_pos_cases w Hd) as (p & Hp & Hpc); [lia..|].
  exists p, fov, w'. split; [exact Hp|]. split; [exact Hrun|].
  assert (Hcol : getitem (mem w') fov
      (if (agent_dir (self w) =? 1) || (agent_dir (self w) =? 2)
       then view_size - 1 - view_size / 2 else view_size / 2)
      (view_size - 2) =
    (if in_boundsb (self w) (fst p) (snd p)
     then getitem (mem w) (grid (self w)) (fst p) (snd p)
     else ObjectTypes.value ObjectTypes.wall)).
  { destruct Hc as [(E & -> & ->)|[(E & -> & ->)|[(E & -> & ->)|(E & -> & ->)]]];
      destruct Hpc as [(E' & ->)|[(E' & ->)|[(E' & ->)|(E' & ->)]]];
      try (exfalso; lia);
      rewrite E; cbn [Z.eqb orb Pos.eqb];
      rewrite Hcells by lia; rewrite E;
      destruct (turn_by_direction view_size
                  (view_size - 1 - view_size / 2) (view_size - 2))
        as (T0 & T1 & T2 & T3);
      destruct (turn_by_direction view_size (view_size / 2) (view_size - 2))
        as (U0 & U1 & U2 & U3);
      rewrite ?T1, ?T2, ?U0, ?U3; cbn [fst snd];
      apply window_cell_coords; lia. }
  split; [exact Hcol|]. intros Ho. rewrite <- Hcol.
  rewrite (odd_half view_size Ho). by destruct (_ || _).
Qed.

Lemma get_field_of_view_front_cell_witness :
  valid_world (fresh_world 4 3 1 (0, 1) 2) /\ 2 <= 3 /\
  width (self (fresh_world 4 3 1 (0, 1) 2)) < 2 ^ 63 /\
  height (self (fresh_world 4 3 1 (0, 1) 2)) < 2 ^ 63 /\
  exists p fov w',
    front_pos (fresh_world 4 3 1 (0, 1) 2) =
      (Ret p, fresh_world 4 3 1 (0, 1) 2) /\
    get_field_of_view 3 (fresh_world 4 3 1 (0, 1) 2) = (Ret fov, w') /\
    getitem (mem w') fov (3 - 1 - 3 / 2) (3 - 2) =
    (if in_boundsb (self (fresh_world 4 3 1 (0, 1) 2)) (fst p) (snd p)
     then getitem (mem (fresh_world 4 3 1 (0, 1) 2))
                  (grid (self (fresh_world 4 3 1 (0, 1) 2))) (fst p) (snd p)
     else ObjectTypes.value ObjectTypes.wall) /\
    (Z.odd 3 = true ->
     getitem (mem w') fov (3 / 2) (3 - 2) =
     if in_boundsb (self (fresh_world 4 3 1 (0, 1) 2)) (fst p) (snd p)
     then getitem (mem (fresh_world 4 3 1 (0, 1) 2))
                  (grid (self (fresh_world 4 3 1 (0, 1) 2))) (fst p) (snd p)
     else ObjectTypes.value ObjectTypes.wall).
Proof.
  assert (Hw : valid_world (fresh_world 4 3 1 (0, 1) 2)).
  { unfold valid_world, c_contiguous, in_bounds, valid_dir; simpl.
    repeat split; try reflexivity; lia. }
  split; [exact Hw|]. split; [lia|]. split; [reflexivity|].
  split; [reflexivity|].
  apply (get_field_of_view_front_cell (fresh_world 4 3 1 (0, 1) 2) 3);
    [exact Hw|lia|reflexivity|reflexivity].
Defined.

(** ** The grid after a call *)

Lemma get_field_of_view_effect w view_size :
  valid_world w -> 1 <= view_size ->
  exists fov w',
    get_field_of_view view_size w = (Ret fov, w') /\
    valid_world w' /\ self w' = self w /\
    base fov = length (mem w) /\
    (shape0 fov = view_size /\ shape1 fov = view_size) /\
    length (mem w') = S (length (mem w)) /\
    (forall i j, in_bounds (self w) i j ->
       getitem (mem w') (grid (self w)) i j =
       if (i =? width (self w) / 2) && (j =? height (self w) - 1)
       then ObjectTypes.value ObjectTypes.agent
       else getitem (mem w) (grid (self w)) i j) /\
    (forall a i j, base a <> base (grid (self w)) ->
       (base a < length (mem w))%nat ->
       getitem (mem w') a i j = getitem (mem w) a i j).
Proof.
  intros Hw Hv.
  destruct (top_left_cases w view_size (proj2 (proj2 Hw)))
    as (tx & ty & Ht & _).
  destruct (get_field_of_view_run w view_size tx ty Hw Hv Ht)
    as (buf & gbuf & _ & _ & _ & Hg & Hrun).
  destruct Hw as (Hc & Hin & Hd).
  pose proof (c_contiguous_base _ _ Hc) as Hbase.
  destruct Hc as (Ho & Hs0 & Hs1 & Hst0 & Hst1 & Hlen).
  rewrite Hg in Hlen. injection Hlen as Hlen.
  unfold in_bounds, width, height in *.
  set (g := grid (self w)) in *. set (h := mem w) in *.
  assert (Hflat : forall i j, flat_index g i j = i * shape1 g + j).
  { intros i j. unfold flat_index. rewrite Ho, Hst0, Hst1. lia. }
  assert (Hhalf : 0 <= shape0 g / 2 < shape0 g)
    by (split; [apply Z.div_pos; lia|apply Z.div_lt_upper_bound; lia]).
  assert (Hg' : (h ++ [buf]) !! base g = Some gbuf)
    by (by rewrite lookup_app_l by lia).
  destruct (iter_rotate_left_shape view_size
              (Z.to_nat (agent_dir (self w) + 1))
              (fresh_window h view_size) eq_refl eq_refl) as (Hb & Hn0 & Hn1).
  eexists _, _. split; [exact Hrun|]. cbn [mem self]. fold g.
  split; [|split; [done|split; [exact Hb|split; [done|split]]]].
  - split; [|done]. cbn [mem self]. fold g.
    repeat split; try done.
    rewrite list_lookup_insert_eq by (rewrite length_app; simpl; lia).
    simpl. by rewrite length_write, Hlen.
  - rewrite length_insert, length_app. simpl. lia.
  - split.
    + intros i j [Hi Hj].
      rewrite (getitem_insert_write _ _ gbuf)
        by (rewrite ?Hflat; try done; nia).
      rewrite getitem_app, !Hflat by lia.
      destruct (Z.eqb_spec (i * shape1 g + j)
                  (shape0 g / 2 * shape1 g + (shape1 g - 1))) as [E|E].
      * apply row_major_inj in E as [-> ->]; [|lia..].
        by rewrite !Z.eqb_refl.
      * destruct (Z.eqb_spec i (shape0 g / 2)) as [->|]; [|done].
        destruct (Z.eqb_spec j (shape1 g - 1)) as [->|]; [|done]. done.
    + intros a i j Ha Hlt.
      rewrite getitem_insert_other by done. by apply getitem_app.
Qed.

Lemma get_type_indices_run t u :
  get_type_indices t u =
  (Ret (List.filter
          (fun ij => getitem (mem u) (grid (self u)) (fst ij) (snd ij) =? t)
          (pairs (width (self u)) (height (self u)))), u).
Proof.
  unfold get_type_indices, bind, get_self, read_mem, ret.
  rewrite np_where_np_equal. cbn [fst snd]. by rewrite combine_fst_snd.
Qed.

Lemma In_type_cells h s t i j :
  In (i, j) (List.filter
               (fun ij => getitem h (grid s) (fst ij) (snd ij) =? t)
               (pairs (width s) (height s))) <->
  in_bounds s i j /\ getitem h (grid s) i j = t.
Proof.
  rewrite filter_In, <- list_elem_of_In, elem_of_pairs.
  unfold in_bounds. simpl. rewrite Z.eqb_eq. tauto.
Qed.

(** X10: a second call changes the grid no further: after two calls (of
    any sizes [>= 1]) the grid holds what it held after the first, and the
    array the first call returned still holds what it held. *)
Theorem get_field_of_view_twice (w : world) (size1 size2 : Z) :
  valid_world w -> 1 <= size1 -> 1 <= size2 ->
  exists fov1 w1 fov2 w2,
    get_field_of_view size1 w = (Ret fov1, w1) /\
    get_field_of_view size2 w1 = (Ret fov2, w2) /\
    tolist (mem w2) (grid (self w2)) = tolist (mem w1) (grid (self w1)) /\
    tolist (mem w2) fov1 = tolist (mem w1) fov1.
Proof.
  intros Hw H1 H2.
  destruct (get_field_of_view_effect w size1 Hw H1)
    as (fov1 & w1 & Hrun1 & Hw1 & Hs1 & Hb1 & _ & Hl1 & Hg1 & _).
  destruct (get_field_of_view_effect w1 size2 Hw1 H2)
    as (fov2 & w2 & Hrun2 & _ & Hs2 & _ & _ & _ & Hg2 & Ho2).
  exists fov1, w1, fov2, w2. split; [exact Hrun1|]. split; [exact Hrun2|].
  pose proof (c_contiguous_base _ _ (proj1 Hw)) as Hbase.
  rewrite Hs1 in Hg2, Ho2. rewrite Hs2, Hs1. split.
  - apply tolist_ext; [done..|]. intros i j Hi Hj.
    rewrite Hg2 by (by split).
    destruct ((i =? _) && (j =? _)) eqn:E; [|done].
    rewrite Hg1 by (by split). by rewrite E.
  - apply tolist_ext; [done..|]. intros i j _ _. apply Ho2.
    + rewrite Hb1. lia.
    + rewrite Hl1, Hb1. lia.
Qed.

Lemma get_field_of_view_twice_witness :
  valid_world (fresh_world 4 3 1 (0, 1) 2) /\ 1 <= 3 /\ 1 <= 5 /\
  exists fov1 w1 fov2 w2,
    get_field_of_view 3 (fresh_world 4 3 1 (0, 1) 2) = (Ret fov1, w1) /\
    get_field_of_view 5 w1 = (Ret fov2, w2) /\
    tolist (mem w2) (grid (self w2)) = tolist (mem w1) (grid (self w1)) /\
    tolist (mem w2) fov1 = tolist (mem w1) fov1.
Proof.
  assert (Hw : valid_world (fresh_world 4 3 1 (0, 1) 2)).
  { unfold valid_world, c_contiguous, in_bounds, valid_dir; simpl.
    repeat split; try reflexivity; lia. }
  split; [exact Hw|]. split; [lia|]. split; [lia|].
  apply (get_field_of_view_twice (fresh_world 4 3 1 (0, 1) 2) 3 5);
    [exact Hw|lia|lia].
Defined.

(** X11: after a call, [get_type_indices(t)] lists the marked coordinate
    [(width // 2, height - 1)] exactly when [t] is the agent code, and
    lists any other coordinate exactly when it did before the call. *)
Theorem get_type_indices_after_call (w : world) (view_size t : Z) :
  valid_world w -> 1 <= view_size ->
  exists before fov w' after,
    get_type_indices t w = (Ret before, w) /\
    get_field_of_view view_size w = (Ret fov, w') /\
    get_type_indices t w' = (Ret after, w') /\
    (In (width (self w) / 2, height (self w) - 1) after <->
     t = ObjectTypes.agent) /\
    forall i j, (i, j) <> (width (self w) / 2, height (self w) - 1) ->
      (In (i, j) after <-> In (i, j) before).
Proof.
  intros Hw Hv.
  destruct (get_field_of_view_effect w view_size Hw Hv)
    as (fov & w' & Hrun & Hw' & Hs & _ & _ & _ & Hg & _).
  destruct Hw as (Hc & [Hax Hay] & _).
  eexists _, fov, w', _. split; [apply get_type_indices_run|].
  split; [exact Hrun|]. split; [apply get_type_indices_run|].
  rewrite Hs. unfold width, height in *.
  assert (Hhalf : 0 <= shape0 (grid (self w)) / 2 < shape0 (grid (self w)))
    by (split; [apply Z.div_pos; lia|apply Z.div_lt_upper_bound; lia]).
  split.
  - rewrite In_type_cells. unfold in_bounds, width, height.
    rewrite Hg by (unfold in_bounds, width, height; lia).
    rewrite !Z.eqb_refl. simpl. split; [by intros [_ <-]|intros ->].
    split; [lia|done].
  - intros i j Hne. rewrite !In_type_cells.
    split; intros [Hb Hv']; (split; [done|]);
      rewrite Hg in * by done;
      destruct (Z.eqb_spec i (shape0 (grid (self w)) / 2)) as [->|];
      destruct (Z.eqb_spec j (shape1 (grid (self w)) - 1)) as [->|];
      simpl in *; try done.
Qed.

Lemma get_type_indices_after_call_witness :
  valid_world (fresh_world 4 3 1 (0, 1) 2) /\ 1 <= 3 /\
  exists before fov w' after,
    get_type_indices 12 (fresh_world 4 3 1 (0, 1) 2) =
      (Ret before, fresh_world 4 3 1 (0, 1) 2) /\
    get_field_of_view 3 (fresh_world 4 3 1 (0, 1) 2) = (Ret fov, w') /\
    get_type_indices 12 w' = (Ret after, w') /\
    (In (4 / 2, 3 - 1) after <-> 12 = ObjectTypes.agent) /\
    forall i j, (i, j) <> (4 / 2, 3 - 1) ->
      (In (i, j) after <-> In (i, j) before).
Proof.
  assert (Hw : valid_world (fresh_world 4 3 1 (0, 1) 2)).
  { unfold valid_world, c_contiguous, in_bounds, valid_dir; simpl.
    repeat split; try reflexivity; lia. }
  split; [exact Hw|]. split; [lia|].
  apply (get_type_indices_after_call (fresh_world 4 3 1 (0, 1) 2) 3 12);
    [exact Hw|lia].
Defined.

(** X12: for one of the four directions and coordinates strictly inside
    the [int64] range, [front_pos] returns a cell at distance exactly one
    from the agent (one step along one axis), and a state placed on that
    cell and facing the opposite direction, [(d + 2) % 4], has the agent's
    cell in front of it. *)
Theorem front_pos_step_back (w w2 : world) :
  valid_dir (agent_dir (self w)) ->
  - 2 ^ 63 < fst (agent_pos (self w)) < 2 ^ 63 - 1 ->
  - 2 ^ 63 < snd (agent_pos (self w)) < 2 ^ 63 - 1 ->
  exists p,
    front_pos w = (Ret p, w) /\
    Z.abs (fst p - fst (agent_pos (self w)))
    + Z.abs (snd p - snd (agent_pos (self w))) = 1 /\
    (agent_pos (self w2) = p ->
     agent_dir (self w2) = (agent_dir (self w) + 2) mod 4 ->
     front_pos w2 = (Ret (agent_pos (self w)), w2)).
Proof.
  intros Hd Hx Hy.
  destruct (front_pos_cases w Hd Hx Hy) as (p & Hp & Hc).
  exists p. split; [exact Hp|].
  destruct (agent_pos (self w)) as [x y] eqn:Ea. cbn [fst snd] in *.
  destruct Hc as [(E & ->)|[(E & ->)|[(E & ->)|(E & ->)]]]; rewrite E;
    (split; [cbn [fst snd]; lia|]); intros Hp2 Hd2;
    unfold front_pos, bind, get_self; rewrite Hd2, Hp2.
  - change (list_getitem DIR_TO_VEC ((0 + 2) mod 4) w2) with (Ret (-1, 0), w2).
    unfold ret, np_add. cbn [fst snd].
    rewrite !wrap64_inside by lia. repeat f_equal; lia.
  - change (list_getitem DIR_TO_VEC ((1 + 2) mod 4) w2) with (Ret (0, -1), w2).
    unfold ret, np_add. cbn [fst snd].
    rewrite !wrap64_inside by lia. repeat f_equal; lia.
  - change (list_getitem DIR_TO_VEC ((2 + 2) mod 4) w2) with (Ret (1, 0), w2).
    unfold ret, np_add. cbn [fst snd].
    rewrite !wrap64_inside by lia. repeat f_equal; lia.
  - change (list_getitem DIR_TO_VEC ((3 + 2) mod 4) w2) with (Ret (0, 1), w2).
    unfold ret, np_add. cbn [fst snd].
    rewrite !wrap64_inside by lia. repeat f_equal; lia.
Qed.

Lemma front_pos_step_back_witness :
  valid_dir (agent_dir (self (fresh_world 4 3 1 (0, 1) 3))) /\
  exists p,
    front_pos (fresh_world 4 3 1 (0, 1) 3) =
      (Ret p, fresh_world 4 3 1 (0, 1) 3) /\
    Z.abs (fst p - 0) + Z.abs (snd p - 1) = 1 /\
    (agent_pos (self (fresh_world 4 3 1 (0, 0) 1)) = p ->
     agent_dir (self (fresh_world 4 3 1 (0, 0) 1)) = (3 + 2) mod 4 ->
     front_pos (fresh_world 4 3 1 (0, 0) 1) =
       (Ret (0, 1), fresh_world 4 3 1 (0, 0) 1)).
Proof.
  assert (Hd : valid_dir (agent_dir (self (fresh_world 4 3 1 (0, 1) 3))))
    by (unfold valid_dir; simpl; lia).
  split; [exact Hd|].
  apply (front_pos_step_back (fresh_world 4 3 1 (0, 1) 3)
           (fresh_world 4 3 1 (0, 0) 1)); [exact Hd|simpl; lia|simpl; lia].
Defined.

(** ** Instances of the properties of the error cases *)

Lemma get_field_of_view_off_grid_outcome_witness :
  c_contiguous (mem (fresh_world 5 5 1 (5, 2) 0))
               (grid (self (fresh_world 5 5 1 (5, 2) 0))) /\
  top_left 3 (fresh_world 5 5 1 (5, 2) 0) =
    (Ret (5, 1), fresh_world 5 5 1 (5, 2) 0) /\
  (fst (get_field_of_view 3 (fresh_world 5 5 1 (5, 2) 0)) = Raise ValueError \/
   exists fov w',
     get_field_of_view 3 (fresh_world 5 5 1 (5, 2) 0) = (Ret fov, w') /\
     shape0 fov = 3 /\ shape1 fov = 3 /\
     forall i j, 0 <= i < 3 -> 0 <= j < 3 ->
       getitem (mem w') fov i j = ObjectTypes.wall).
Proof.
  assert (Hc : c_contiguous (mem (fresh_world 5 5 1 (5, 2) 0))
                 (grid (self (fresh_world 5 5 1 (5, 2) 0)))).
  { unfold c_contiguous; simpl. repeat split; try reflexivity; lia. }
  split; [exact Hc|]. split; [reflexivity|].
  apply (get_field_of_view_off_grid_outcome
           (fresh_world 5 5 1 (5, 2) 0) 3 5 1);
    [exact Hc|reflexivity|reflexivity|lia|reflexivity|].
  right; left. unfold width; simpl. lia.
Defined.

Lemma front_pos_negative_table_witness :
  -4 <= agent_dir (self (fresh_world 3 3 1 (1, 1) (-1))) <= -1 /\
  exists v,
    DIR_TO_VEC !! Z.to_nat (-1 + 4) = Some v /\
    front_pos (fresh_world 3 3 1 (1, 1) (-1)) =
      (Ret (1 + fst v, 1 + snd v), fresh_world 3 3 1 (1, 1) (-1)).
Proof.
  assert (Hd : -4 <= agent_dir (self (fresh_world 3 3 1 (1, 1) (-1))) <= -1)
    by (simpl; lia).
  split; [exact Hd|].
  apply (front_pos_negative_table (fresh_world 3 3 1 (1, 1) (-1)) Hd);
    simpl; lia.
Defined.

Lemma front_pos_outside_table_witness :
  (agent_dir (self (fresh_world 3 3 1 (1, 1) 7)) < -4 \/
   4 <= agent_dir (self (fresh_world 3 3 1 (1, 1) 7))) /\
  front_pos (fresh_world 3 3 1 (1, 1) 7) =
    (Raise IndexError, fresh_world 3 3 1 (1, 1) 7).
Proof.
  assert (Hd : agent_dir (self (fresh_world 3 3 1 (1, 1) 7)) < -4 \/
               4 <= agent_dir (self (fresh_world 3 3 1 (1, 1) 7)))
    by (right; simpl; lia).
  split; [exact Hd|].
  apply (front_pos_outside_table (fresh_world 3 3 1 (1, 1) 7) Hd).
Defined.

Lemma get_field_of_view_invalid_direction_witness :
  ~ valid_dir (agent_dir (self (fresh_world 3 3 1 (1, 1) 7))) /\
  get_field_of_view 3 (fresh_world 3 3 1 (1, 1) 7) =
    (Raise AssertionError, fresh_world 3 3 1 (1, 1) 7).
Proof.
  assert (Hd : ~ valid_dir (agent_dir (self (fresh_world 3 3 1 (1, 1) 7))))
    by (unfold valid_dir; simpl; lia).
  split; [exact Hd|].
  apply (get_field_of_view_invalid_direction
           (fresh_world 3 3 1 (1, 1) 7) 3 Hd).
Defined.
